(** * Britium Express: pricing, profile sync, REST client, sign-up, tracking

    A shallow embedding of the quotation arithmetic of the public
    Send/Quote/Track page ([estimatePriceMMK], [volumetricWeightKg],
    [chargeableKg]) and of its shipment search, of the international rate
    calculator, of the [useAuthProfile] hook in its three source variants,
    of the REST client ([src/api]) with its configuration readers, and of
    the account sign-up form.

    Numbers are rationals ([Q], compared with [==]).  Module [Pricing]
    reads the tariff arithmetic in exact arithmetic, which is what the
    order and bound properties of the estimate need; module [Binary64]
    reads [estimatePriceMMK] with every operation rounded to the nearest
    binary64 number, as the engine computes it, and is the one that
    decides which multiple of 100 a given weight is charged.  A weight
    that is not a number ([NaN]) is modelled where the calculator page can
    hold one.  Strings are sequences of 8-bit characters. *)

From Stdlib Require Import ZArith NArith QArith Qround Qminmax Qabs Qpower.
From Stdlib Require Import Lqa Lia.
From Stdlib Require Import Bool List Ascii String Decimal DecimalString.
From Stdlib Require Import PrimFloat FloatOps SpecFloat.
Import ListNotations.

(** ** Numeric primitives of the host language *)

Module JS.

Local Open Scope Q_scope.

(** [Math.round]: nearest integer, a fractional part of exactly one half
    goes towards plus infinity. *)
Definition Math_round (x : Q) : Q := inject_Z (Qfloor (x + (1 # 2))).

(** [Math.max] on two numbers. *)
Definition Math_max (a b : Q) : Q := Qmax a b.

(** [x || 0] on a number: zero is the only falsy rational. *)
Definition or_zero (x : Q) : Q := if Qeq_bool x 0 then 0 else x.

(** [Number(x)] on a number is the identity. *)
Definition Number (x : Q) : Q := x.

(** A number that may be [NaN], as [parseFloat] yields for an empty or
    non-numeric text. *)
Inductive Num : Type :=
| Finite (q : Q)
| NaN.

(** [Math.max] and [*] propagate [NaN]. *)
Definition num_max (a b : Num) : Num :=
  match a, b with
  | Finite x, Finite y => Finite (Math_max x y)
  | _, _ => NaN
  end.

Definition num_mul (a b : Num) : Num :=
  match a, b with
  | Finite x, Finite y => Finite (x * y)
  | _, _ => NaN
  end.

(** [x || 0] on such a number: [NaN] is falsy as well. *)
Definition num_or_zero (x : Num) : Q :=
  match x with
  | Finite q => or_zero q
  | NaN => 0
  end.

End JS.

(** ** Pricing engine (Send/Quote/Track page) *)

Module Pricing.

Import JS.

Local Open Scope Q_scope.
Local Open Scope string_scope.

(** The closed tables [REGIONS] and [SERVICES]. *)
Definition REGIONS : list string :=
  ["Yangon"; "Mandalay"; "Naypyidaw"; "Bago"; "Other"].
Definition SERVICES : list string := ["Standard"; "Express"; "Same-day"].

(** The union type [(typeof SERVICES)[number]]. *)
Inductive ServiceTier : Type := Standard | Express | SameDay.

Definition service_literal (t : ServiceTier) : string :=
  match t with
  | Standard => "Standard"
  | Express => "Express"
  | SameDay => "Same-day"
  end.

Record PriceInput : Type := mkPriceInput {
  serviceType : string;
  destinationRegion : string;
  chargeableWeightKg : Q
}.

Definition serviceMultiplier (s : string) : Q :=
  if String.eqb s "Same-day" then 18 # 10
  else if String.eqb s "Express" then 135 # 100
  else 1.

Definition regionMultiplier (r : string) : Q :=
  if String.eqb r "Yangon" then 1
  else if String.eqb r "Other" then 125 # 100
  else 115 # 100.

Definition base : Q := 2500.
Definition perKg : Q := 1200.

(** The tariff in exact arithmetic; [Binary64.raw] is the same expression
    with the rounding of each operation. *)
Definition raw (input : PriceInput) : Q :=
  (base + perKg * chargeableWeightKg input)
  * serviceMultiplier (serviceType input)
  * regionMultiplier (destinationRegion input).

(** The estimate in exact arithmetic; [Binary64.estimatePriceMMK] is the
    same expression with the rounding of each operation. *)
Definition estimatePriceMMK (input : PriceInput) : Q :=
  Math_round (raw input / 100) * 100.

Definition volumetricWeightKg (lengthCm widthCm heightCm : Q) : Q :=
  let v := (lengthCm * widthCm * heightCm) / 5000 in
  Math_max 0 v.

(** The values watched on the quote form. *)
Record Watched : Type := mkWatched {
  w_serviceType : ServiceTier;
  w_destinationRegion : string;
  weightKg : Q;
  lengthCm : Q;
  widthCm : Q;
  heightCm : Q
}.

Definition volKg (watched : Watched) : Q :=
  volumetricWeightKg (or_zero (lengthCm watched))
                     (or_zero (widthCm watched))
                     (or_zero (heightCm watched)).

(** Body of the [chargeableKg] memo, as a function of the two values it
    depends on. *)
Definition chargeableKg_of (weight vol : Q) : Q :=
  let actual := Number (or_zero weight) in
  Math_max actual vol.

Definition chargeableKg (watched : Watched) : Q :=
  chargeableKg_of (weightKg watched) (volKg watched).

Definition estimate (watched : Watched) : Q :=
  estimatePriceMMK
    {| serviceType := service_literal (w_serviceType watched);
       destinationRegion := w_destinationRegion watched;
       chargeableWeightKg := chargeableKg watched |}.

(** *** The tariff as the design document words it *)

Definition spec_service_multiplier (t : ServiceTier) : Q :=
  match t with
  | Standard => 1
  | Express => 135 # 100
  | SameDay => 18 # 10
  end.

Definition spec_region_multiplier (r : string) : Q :=
  if String.eqb r "Yangon" then 1
  else if String.eqb r "Other" then 125 # 100
  else 115 # 100.

Definition spec_raw (t : ServiceTier) (r : string) (w : Q) : Q :=
  (2500 + 1200 * w) * spec_service_multiplier t * spec_region_multiplier r.

(** [p] is [x] rounded to the nearest hundred, halves going up: [p] is a
    multiple of 100 and [x] lies in the half-open window of width 100
    centred on [p]. *)
Definition nearest_100_half_up (x p : Q) : Prop :=
  (exists n : Z, p == 100 * inject_Z n) /\ p - 50 <= x /\ x < p + 50.

Definition estimatePrice (t : ServiceTier) (r : string) (w : Q) : Q :=
  estimatePriceMMK
    {| serviceType := service_literal t;
       destinationRegion := r;
       chargeableWeightKg := w |}.

End Pricing.

(** ** The pricing engine in binary64 arithmetic *)

Module Binary64.

Import JS Pricing.

Local Open Scope Q_scope.

(** A finite binary64 number is represented by its value.  [fl] rounds a
    rational to the nearest number of the form [m * 2^k] with
    [|m| < 2^53] and [k >= -1074], ties going to the even [m]. *)

Definition pow2 (k : Z) : Q := 2 ^ k.

(** The integer [e] with [2^e <= a < 2^(e+1)], for positive [a]. *)
Definition ilog2 (a : Q) : Z :=
  let c := (Z.log2 (Qnum a) - Z.log2 (Z.pos (Qden a)))%Z in
  if Qle_bool (pow2 c) a then c else (c - 1)%Z.

(** Nearest integer, a tie going to the even one. *)
Definition round_even (m : Q) : Z :=
  let f := Qfloor m in
  match Qcompare (m - inject_Z f) (1 # 2) with
  | Lt => f
  | Gt => (f + 1)%Z
  | Eq => if Z.even f then f else (f + 1)%Z
  end.

(** Exponent of the unit in the last place at [a]: 52 below the exponent
    of [a], which is held at -1022 for the subnormal numbers. *)
Definition ulp_exp (a : Q) : Z := (Z.max (ilog2 a) (-1022) - 52)%Z.

Definition nearest (a : Q) : Q :=
  inject_Z (round_even (a / pow2 (ulp_exp a))) * pow2 (ulp_exp a).

Definition fl (x : Q) : Q :=
  let x' := Qred x in
  Qred (match Qcompare x' 0 with
        | Eq => 0
        | Gt => nearest x'
        | Lt => - nearest (- x')
        end).

(** The largest finite binary64 number, [(2^53 - 1) * 2^971]. *)
Definition max_double : Q := inject_Z (2 ^ 53 - 1) * pow2 971.

(** The result of an operation whose exact value is [x]: the rounded
    value, or nothing when it is beyond the finite numbers (an infinity,
    which the operations after it turn into an infinity or [NaN]). *)
Definition round64 (x : Q) : option Q :=
  let y := fl x in
  if Qle_bool (Qabs y) max_double then Some y else None.

Definition mul64 (a b : Q) : option Q := round64 (a * b).
Definition add64 (a b : Q) : option Q := round64 (a + b).
(** Division by a number that is not zero. *)
Definition div64 (a b : Q) : option Q := round64 (a / b).

(** A decimal literal denotes the binary64 number nearest to it. *)
Definition literal (q : Q) : Q := fl q.

(** [x] is a finite binary64 number. *)
Definition is_double (x : Q) : bool :=
  match round64 x with
  | Some y => Qeq_bool y x
  | None => false
  end.

Definition bind {A B : Type} (m : option A) (f : A -> option B) : option B :=
  match m with
  | Some a => f a
  | None => None
  end.

(** [(base + perKg * chargeableWeightKg) * serviceMultiplier
    * regionMultiplier], operation by operation. *)
Definition raw (input : PriceInput) : option Q :=
  let serviceMultiplier := literal (serviceMultiplier (serviceType input)) in
  let regionMultiplier := literal (regionMultiplier (destinationRegion input)) in
  bind (mul64 perKg (chargeableWeightKg input)) (fun kg =>
  bind (add64 base kg) (fun sum =>
  bind (mul64 sum serviceMultiplier) (fun by_service =>
  mul64 by_service regionMultiplier))).

(** [Math.round(raw / 100) * 100]; [Math.round] of a binary64 number is
    exact. *)
Definition estimatePriceMMK (input : PriceInput) : option Q :=
  bind (raw input) (fun raw =>
  bind (div64 raw 100) (fun hundreds =>
  mul64 (Math_round hundreds) 100)).

Definition estimatePrice (t : ServiceTier) (r : string) (w : Q) : option Q :=
  estimatePriceMMK
    {| serviceType := service_literal t;
       destinationRegion := r;
       chargeableWeightKg := w |}.

(** How far the binary64 result may be from an exact tariff [x] before
    the final rounding: [x / 2^49]. *)
Definition tolerance (x : Q) : Q := x * (1 # 562949953421312).

(** *** The same expression on the kernel's binary64 numbers *)

(** The value of a finite float. *)
Definition of_float (f : float) : option Q :=
  match Prim2SF f with
  | S754_zero _ => Some 0
  | S754_finite s m e =>
      Some (Qred ((if s then -1 else 1) * inject_Z (Z.pos m) * pow2 e))
  | _ => None
  end.

Definition raw_float (serviceMultiplier regionMultiplier w : float) : float :=
  ((2500 + 1200 * w) * serviceMultiplier * regionMultiplier)%float.

(** The float nearest to a positive rational whose numerator and
    denominator are below [2^53]: both are floats, and division is
    correctly rounded. *)
Definition to_float (q : Q) : float :=
  (SF2Prim (S754_finite false (Z.to_pos (Qnum q)) 0)
   / SF2Prim (S754_finite false (Qden q) 0))%float.

Definition same_number (a b : option Q) : bool :=
  match a, b with
  | Some x, Some y => Qeq_bool x y
  | None, None => true
  | _, _ => false
  end.

(** [raw], and its quotient by 100, are the numbers the kernel's floats
    give for service [s], region [r] and the binary64 weight nearest to
    [w]. *)
Definition agrees_with_floats (s r : string) (w : Q) : bool :=
  let input := mkPriceInput s r (fl w) in
  let float_raw := raw_float (to_float (Pricing.serviceMultiplier s))
                             (to_float (Pricing.regionMultiplier r))
                             (to_float w) in
  same_number (raw input) (of_float float_raw)
  && same_number (bind (raw input) (fun d => div64 d 100))
                 (of_float (float_raw / 100)%float).

Definition sample_weights : list Q :=
  [1 # 1000; 1 # 24; 1 # 8; 1 # 3; 1 # 2; 1; 5 # 2; 375 # 100; 7; 999 # 100;
   1234567 # 1000; 5400; 1000000000000].

End Binary64.

(** ** Profile sync: the [useAuthProfile] hook *)

Module ProfileSync.

Local Open Scope nat_scope.
Local Open Scope string_scope.

(** The fields of a Firebase [User] that the hook reads. *)
Record User : Type := mkUser {
  uid : string;
  u_displayName : option string;
  u_email : option string
}.

(** [UserProfile]; the fields are the union of those the variants
    declare, every one of them optional. *)
Record UserProfile : Type := mkProfile {
  role : option string;
  stationId : option string;
  stationName : option string;
  displayName : option string;
  email : option string;
  phone : option string;
  active : option bool
}.

(** A document snapshot: [snap.exists()] is [false] and [snap.data()] is
    [undefined] exactly when the document is absent. *)
Definition DocumentSnapshot : Type := option UserProfile.

Definition snap_exists (snap : DocumentSnapshot) : bool :=
  match snap with Some _ => true | None => false end.

Definition snap_data (snap : DocumentSnapshot) : option UserProfile := snap.

(** The three React state cells; this triple is what the hook returns. *)
Record SyncState : Type := mkSync {
  user : option User;
  profile : option UserProfile;
  loading : bool
}.

(** A call of one of the three state setters. *)
Inductive Update : Type :=
| SetUser (u : option User)
| SetProfile (p : option UserProfile)
| SetLoading (b : bool).

(** Handle of an inner document subscription (or of a pending read). *)
Definition Handle : Type := nat.

(** The hook's state together with the part of the outside world it
    touches: the outer auth subscription, the inner document listeners
    that are open (each closure has captured its user [u]), the setter
    calls issued so far (oldest first), and the promise rejections that
    escaped the auth callback.  The hook itself keeps no flag telling
    whether its component is still mounted; that is React's, and is
    modelled in [Rendered]. *)
Record World : Type := mkWorld {
  state : SyncState;
  published : list Update;
  authListener : bool;
  listeners : list (Handle * User);
  nextHandle : Handle;
  unhandled : nat
}.

(** *** A state monad for the callbacks *)

Definition Hook (A : Type) : Type := World -> A * World.

Definition ret {A : Type} (a : A) : Hook A := fun w => (a, w).

Definition bind {A B : Type} (m : Hook A) (k : A -> Hook B) : Hook B :=
  fun w => let (a, w') := m w in k a w'.

Declare Scope hook_scope.
Delimit Scope hook_scope with hook.
Notation "x <- m ;; k" := (bind m (fun x => k))
  (at level 61, m at next level, right associativity) : hook_scope.
Notation "m ;; k" := (bind m (fun _ => k))
  (at level 61, right associativity) : hook_scope.
Local Open Scope hook_scope.

Definition exec {A : Type} (m : Hook A) (w : World) : World := snd (m w).

Definition apply_update (upd : Update) (s : SyncState) : SyncState :=
  match upd with
  | SetUser u => mkSync u (profile s) (loading s)
  | SetProfile p => mkSync (user s) p (loading s)
  | SetLoading b => mkSync (user s) (profile s) b
  end.

(** A setter call as React applies it while the component is mounted
    (for calls made after the unmount see [Rendered]). *)
Definition publish (upd : Update) : Hook unit :=
  fun w => (tt, mkWorld (apply_update upd (state w))
                        (published w ++ [upd])
                        (authListener w) (listeners w) (nextHandle w)
                        (unhandled w)).

Definition setUser (u : option User) : Hook unit := publish (SetUser u).
Definition setProfile (p : option UserProfile) : Hook unit :=
  publish (SetProfile p).
Definition setLoading (b : bool) : Hook unit := publish (SetLoading b).

(** [onSnapshot(ref, next, error)] for the document [users/{u.uid}]:
    registers a listener and returns its unsubscribe handle. *)
Definition onSnapshot (u : User) : Hook Handle :=
  fun w => (nextHandle w,
            mkWorld (state w) (published w) (authListener w)
                    ((nextHandle w, u) :: listeners w)
                    (S (nextHandle w)) (unhandled w)).

Fixpoint remove_handle (h : Handle) (l : list (Handle * User))
  : list (Handle * User) :=
  match l with
  | [] => []
  | (h', u) :: l' =>
      if Nat.eqb h h' then remove_handle h l'
      else (h', u) :: remove_handle h l'
  end.

Fixpoint find_handle (h : Handle) (l : list (Handle * User)) : option User :=
  match l with
  | [] => None
  | (h', u) :: l' => if Nat.eqb h h' then Some u else find_handle h l'
  end.

(** Calling an unsubscribe handle. *)
Definition unsubscribe (h : Handle) : Hook unit :=
  fun w => (tt, mkWorld (state w) (published w) (authListener w)
                        (remove_handle h (listeners w))
                        (nextHandle w) (unhandled w)).

Definition unsubAuth : Hook unit :=
  fun w => (tt, mkWorld (state w) (published w) false (listeners w)
                        (nextHandle w) (unhandled w)).

(** [x ?? d] on an optional value. *)
Definition coalesce {A : Type} (x d : option A) : option A :=
  match x with
  | Some a => Some a
  | None => d
  end.

(** The profile substituted when the document is absent or unreadable. *)
Definition defaultProfile (u : User) : UserProfile :=
  {| role := Some "customer";
     stationId := None;
     stationName := None;
     displayName := coalesce (u_displayName u) None;
     email := coalesce (u_email u) None;
     phone := None;
     active := None |}.

(** What the outside world can do to the hook. *)
Inductive Event : Type :=
| AuthChanged (u : option User)
| DocSnapshot (h : Handle) (snap : DocumentSnapshot)
| DocError (h : Handle)
| Unmount.

(** The hook before its effect has run. *)
Definition initial : World :=
  {| state := mkSync None None true;
     published := [];
     authListener := false;
     listeners := [];
     nextHandle := 0;
     unhandled := 0 |}.

(** The cleanup a callback hands back: the handle it would unsubscribe. *)
Definition Cleanup : Type := option Handle.

(** How [onAuthStateChanged] calls its observer: the observer is typed
    [(user) => void], and whatever it returns is dropped. *)
Definition notifyAuth {A : Type} (observer : option User -> Hook A)
                      (u : option User) : Hook unit :=
  _ <- observer u ;;
  ret tt.

(** *** Variant of [src/shared/useAuthProfile.ts] *)

Module Shared.

(** The callback given to [onAuthStateChanged]. *)
Definition authCallback (u : option User) : Hook Cleanup :=
  setUser u ;;
  setLoading true ;;
  match u with
  | None =>
      setProfile None ;;
      setLoading false ;;
      ret None
  | Some u' =>
      unsubProfile <- onSnapshot u' ;;
      ret (Some unsubProfile)
  end.

(** First callback given to [onSnapshot]. *)
Definition onNext (u : User) (snap : DocumentSnapshot) : Hook unit :=
  (if snap_exists snap
   then setProfile (snap_data snap)
   else setProfile (Some (defaultProfile u))) ;;
  setLoading false.

(** Second callback given to [onSnapshot]. *)
Definition onError (u : User) : Hook unit :=
  setProfile (Some (defaultProfile u)) ;;
  setLoading false.

(** The effect: subscribe to the auth stream.  Its cleanup is
    [unsubAuth]. *)
Definition mount : World :=
  mkWorld (state initial) (published initial) true (listeners initial)
          (nextHandle initial) (unhandled initial).

(** Delivery of one event.  The auth stream notifies its observer while
    the outer subscription is open; a document listener is called only
    while it is registered, and is dropped by the store after it has
    reported an error. *)
Definition deliver (e : Event) (w : World) : World :=
  match e with
  | AuthChanged u =>
      if authListener w then exec (notifyAuth authCallback u) w else w
  | DocSnapshot h snap =>
      match find_handle h (listeners w) with
      | Some u => exec (onNext u snap) w
      | None => w
      end
  | DocError h =>
      match find_handle h (listeners w) with
      | Some u => exec (unsubscribe h ;; onError u) w
      | None => w
      end
  | Unmount => exec unsubAuth w
  end.

Definition run (es : list Event) (w : World) : World :=
  fold_left (fun w' e => deliver e w') es w.

End Shared.

(** *** Second snapshot variant: [setLoading(true)] only after the
    logout test, and the error is logged *)

Module Snapshot2.

Definition authCallback (u : option User) : Hook Cleanup :=
  setUser u ;;
  match u with
  | None =>
      setProfile None ;;
      setLoading false ;;
      ret None
  | Some u' =>
      setLoading true ;;
      unsubProfile <- onSnapshot u' ;;
      ret (Some unsubProfile)
  end.

Definition onNext : User -> DocumentSnapshot -> Hook unit := Shared.onNext.
Definition onError : User -> Hook unit := Shared.onError.

End Snapshot2.

(** *** One-shot variant: [getDoc] awaited inside an async callback *)

Module OneShot.

(** [getDoc(doc(db, "users", u.uid))]: a read is now pending. *)
Definition getDoc (u : User) : Hook Handle := onSnapshot u.

(** The async callback up to its [await]. *)
Definition authCallback (u : option User) : Hook unit :=
  setUser u ;;
  setProfile None ;;
  match u with
  | None => setLoading false
  | Some u' =>
      setLoading true ;;
      _ <- getDoc u' ;;
      ret tt
  end.

(** The rest of the [try] block and its [finally], once the read has
    resolved. *)
Definition resumed (snap : DocumentSnapshot) : Hook unit :=
  setProfile (coalesce (snap_data snap) None) ;;
  setLoading false.

(** The [finally] block when the read has rejected; there is no
    [catch], so the promise of the callback rejects. *)
Definition rejected : Hook unit :=
  setLoading false ;;
  fun w => (tt, mkWorld (state w) (published w) (authListener w)
                        (listeners w) (nextHandle w) (S (unhandled w))).

Definition mount : World := Shared.mount.

(** Here [DocSnapshot h] and [DocError h] settle the pending read [h];
    a read settles once. *)
Definition deliver (e : Event) (w : World) : World :=
  match e with
  | AuthChanged u =>
      if authListener w then exec (notifyAuth authCallback u) w else w
  | DocSnapshot h snap =>
      match find_handle h (listeners w) with
      | Some _ => exec (unsubscribe h ;; resumed snap) w
      | None => w
      end
  | DocError h =>
      match find_handle h (listeners w) with
      | Some _ => exec (unsubscribe h ;; rejected) w
      | None => w
      end
  | Unmount => exec unsubAuth w
  end.

Definition run (es : list Event) (w : World) : World :=
  fold_left (fun w' e => deliver e w') es w.

End OneShot.

(** *** Classes of events, and sample data for concrete runs *)

Definition is_doc_error (e : Event) : bool :=
  match e with
  | DocError _ => true
  | _ => false
  end.

Definition is_auth_event (e : Event) : bool :=
  match e with
  | AuthChanged _ => true
  | _ => false
  end.

(** The number of non-null identities among the events of a run. *)
Fixpoint sign_ins (es : list Event) : nat :=
  match es with
  | [] => 0
  | AuthChanged (Some _) :: rest => S (sign_ins rest)
  | _ :: rest => sign_ins rest
  end.

(** *** The hook inside its component

    The state cells belong to the component that called the hook.  React
    applies a setter call only while that component is mounted; a call made
    afterwards is dropped and nothing is rendered.  The effect of the hook
    has no dependencies, so its cleanup, [unsubAuth], runs exactly when the
    component unmounts. *)

Module Rendered.

Record Component : Type := mkComponent {
  hook : World;
  mounted : bool;
  discarded : list Update
}.

(** What the hook last returned to its caller. *)
Definition rendered (c : Component) : SyncState := state (hook c).

Definition mount : Component := mkComponent Shared.mount true [].

(** The setter calls made between two worlds of one run. *)
Definition new_updates (before after : World) : list Update :=
  skipn (List.length (published before)) (published after).

(** One event.  After the unmount the callbacks that are still registered
    outside keep running, but the setter calls they make are dropped: the
    cells and the published calls stay as they were at the unmount. *)
Definition deliver (e : Event) (c : Component) : Component :=
  match e with
  | Unmount => mkComponent (Shared.deliver Unmount (hook c)) false (discarded c)
  | _ =>
      let w' := Shared.deliver e (hook c) in
      if mounted c
      then mkComponent w' true (discarded c)
      else mkComponent
             (mkWorld (state (hook c)) (published (hook c))
                      (authListener w') (listeners w') (nextHandle w')
                      (unhandled w'))
             false
             (discarded c ++ new_updates (hook c) w')
  end.

Definition run (es : list Event) (c : Component) : Component :=
  fold_left (fun c' e => deliver e c') es c.

End Rendered.

(** Two identities and a stored profile. *)
Definition userU : User :=
  mkUser "uid-U" (Some "U Aung") (Some "u@example.com").
Definition userV : User :=
  mkUser "uid-V" (Some "V Hla") None.
Definition managerProfile : UserProfile :=
  mkProfile (Some "manager") (Some "ST-01") (Some "Yangon Main")
            (Some "U Aung") (Some "u@example.com") None None.

End ProfileSync.

(** ** REST client: [src/api/client.ts] and [src/api/auth.ts] *)

Module RestApi.

Local Open Scope string_scope.

(** [api.defaults.headers.common]: only [Authorization] is ever written. *)
Record ApiDefaults : Type := mkDefaults {
  Authorization : option string
}.

(** What can be thrown: an axios error, with the parts of it the client
    looks at, or a plain [Error] carrying a message. *)
Inductive Thrown : Type :=
| AxiosError (data_message data_error message : option string)
| PlainError (message : string)
| OtherValue.

(** How a promise settles. *)
Inductive Settled (A : Type) : Type :=
| Fulfilled (a : A)
| Rejected (err : Thrown).
Arguments Fulfilled {A} a.
Arguments Rejected {A} err.

(** Body of an [AuthResponse] or of [AuthTokens], reduced to the field the
    client reads. *)
Record Payload : Type := mkPayload {
  accessToken : string
}.

(** The backend: what [api.post(path)] settles to. *)
Definition Server : Type := string -> ApiDefaults -> Settled Payload.

(** Asynchronous code over the client defaults. *)
Definition Async (A : Type) : Type := ApiDefaults -> Settled A * ApiDefaults.

Definition resolve {A : Type} (a : A) : Async A := fun d => (Fulfilled a, d).

Definition throw {A : Type} (err : Thrown) : Async A :=
  fun d => (Rejected err, d).

Definition await {A B : Type} (m : Async A) (k : A -> Async B) : Async B :=
  fun d =>
    match m d with
    | (Fulfilled a, d') => k a d'
    | (Rejected e, d') => (Rejected e, d')
    end.

(** [try { body } catch (err) { handler }]. *)
Definition try_catch {A : Type} (body : Async A) (handler : Thrown -> Async A)
  : Async A :=
  fun d =>
    match body d with
    | (Fulfilled a, d') => (Fulfilled a, d')
    | (Rejected e, d') => handler e d'
    end.

(** [try { body } finally { fin }]: [fin] always runs; the outcome is that
    of [body] unless [fin] itself throws. *)
Definition try_finally {A : Type} (body : Async A) (fin : Async unit)
  : Async A :=
  fun d =>
    let (r, d') := body d in
    match fin d' with
    | (Fulfilled _, d'') => (r, d'')
    | (Rejected e, d'') => (Rejected e, d'')
    end.

(** A string is truthy when it is not empty; [null] and [undefined] are
    falsy. *)
Definition truthy (x : option string) : bool :=
  match x with
  | Some EmptyString => false
  | Some _ => true
  | None => false
  end.

Definition setAuthToken (token : option string) : Async unit :=
  fun _ =>
    match token with
    | Some t =>
        if truthy token
        then (Fulfilled tt, mkDefaults (Some ("Bearer " ++ t)))
        else (Fulfilled tt, mkDefaults None)
    | None => (Fulfilled tt, mkDefaults None)
    end.

Definition api_post (server : Server) (path : string) : Async Payload :=
  fun d => (server path d, d).

(** [a || b] on optional strings. *)
Definition or_else (a b : option string) : option string :=
  if truthy a then a else b.

Definition toApiErrorMessage (err : Thrown) : string :=
  match err with
  | AxiosError data_message data_error message =>
      match or_else data_message (or_else data_error
              (or_else message (Some "Request failed"))) with
      | Some m => m
      | None => "Request failed"
      end
  | _ => "Unknown error"
  end.

Definition login (server : Server) : Async Payload :=
  try_catch
    (await (api_post server "/auth/login") (fun res =>
     await (setAuthToken (Some (accessToken res))) (fun _ =>
     resolve res)))
    (fun err => throw (PlainError (toApiErrorMessage err))).

Definition logout (server : Server) : Async unit :=
  try_finally
    (try_catch
       (await (api_post server "/auth/logout") (fun _ => resolve tt))
       (fun _ => resolve tt))
    (setAuthToken None).

End RestApi.

(** ** The quote form: validation ranges and the money label *)

Module QuoteForm.

Import JS Pricing.

Local Open Scope Q_scope.
Local Open Scope string_scope.

(** [z.coerce.number().positive(...).max(bound, ...)] on a number. *)
Definition positive_max (bound x : Q) : bool :=
  negb (Qle_bool x 0) && Qle_bool x bound.

(** The four numeric fields of [QuoteSchema]. *)
Definition QuoteSchema_measures (watched : Watched) : bool :=
  positive_max 200 (weightKg watched)
  && positive_max 300 (lengthCm watched)
  && positive_max 300 (widthCm watched)
  && positive_max 300 (heightCm watched).

Section Money.

(** [new Intl.NumberFormat("en-US").format], which may throw, and the
    conversion of a number inside a template string. *)
Variable intl_format : Q -> option string.
Variable to_string : Q -> string.

Definition formatMoneyMMK (amount : Q) : string :=
  match intl_format (Math_round amount) with
  | Some s => s ++ " MMK"
  | None => to_string (Math_round amount) ++ " MMK"
  end.

End Money.

End QuoteForm.

(** ** The international rate calculator ([ShippingCalculator]) *)

Module Calculator.

Import JS.

Local Open Scope Q_scope.
Local Open Scope string_scope.

(** A row of [pricing_international], with the two columns that are read;
    the rate is the number the stored value converts to in a product. *)
Record Rate : Type := mkRate {
  country_name : string;
  base_rate_5_10kg : Num
}.

(** The three dimensions are set with [+e.target.value] from number
    inputs, whose value is a valid number or the empty text, so they are
    numbers. *)
Record Dims : Type := mkDims { l : Q; w : Q; h : Q }.

(** The state cells of the component.  The weight is set with
    [parseFloat(e.target.value)] and is [NaN] once the field is cleared. *)
Record CalcState : Type := mkCalc {
  loading : bool;
  intlRates : list Rate;
  weight : Num;
  dims : Dims;
  selectedCountry : string;
  quote : option Num;
  breakdown : string
}.

Definition volWeight (d : Dims) : Q :=
  let divisor := 5000 in
  (l d * w d * h d) / divisor.

Definition chargeable (st : CalcState) : Num :=
  num_max (weight st) (Finite (volWeight (dims st))).

Section Intl.

(** [Number.prototype.toFixed(2)] on a number that is not [NaN]. *)
Variable toFixed2 : Q -> string.

Definition num_toFixed2 (x : Num) : string :=
  match x with
  | Finite q => toFixed2 q
  | NaN => "NaN"
  end.

Definition calculateIntl (st : CalcState) : CalcState :=
  let countryRate :=
    find (fun c => String.eqb (country_name c) (selectedCountry st))
         (intlRates st) in
  match countryRate with
  | Some rate =>
      let total := num_mul (chargeable st) (base_rate_5_10kg rate) in
      mkCalc false (intlRates st) (weight st) (dims st) (selectedCountry st)
             (Some total)
             ("Chargeable Weight: " ++ num_toFixed2 (chargeable st)
              ++ " kg (Volumetric: " ++ toFixed2 (volWeight (dims st))
              ++ " kg)")
  | None =>
      mkCalc false (intlRates st) (weight st) (dims st) (selectedCountry st)
             (quote st) (breakdown st)
  end.

End Intl.

(** The weight the quote form charges for the same entries: its weight
    field goes through [|| 0] and its volumetric weight is clamped. *)
Definition quote_form_chargeable (entered : Num) (d : Dims) : Q :=
  Math_max (Number (num_or_zero entered))
           (Pricing.volumetricWeightKg (l d) (w d) (h d)).

End Calculator.

(** ** REST client, continued: the other calls of [src/api] and the
    configuration readers *)

Module RestClient.

Import RestApi.

Local Open Scope string_scope.

Definition register (server : Server) : Async Payload :=
  try_catch
    (await (api_post server "/auth/register") (fun res =>
     await (setAuthToken (Some (accessToken res))) (fun _ =>
     resolve res)))
    (fun err => throw (PlainError (toApiErrorMessage err))).

Definition refreshToken (server : Server) : Async Payload :=
  try_catch
    (await (api_post server "/auth/refresh") (fun res =>
     await (setAuthToken (Some (accessToken res))) (fun _ =>
     resolve res)))
    (fun err => throw (PlainError (toApiErrorMessage err))).

Section Tracking.

(** Request bodies and response bodies of [src/api/tracking.ts]. *)
Variables TrackingEvent NewTrackingEvent DriverLocation NewDriverLocation : Type.

Variable orderId_of : NewDriverLocation -> string.

(** What the backend answers to the four requests, given the path (and
    body) and the client defaults the request is sent with. *)
Record Backend : Type := mkBackend {
  timeline : string -> ApiDefaults -> Settled (list TrackingEvent);
  added : string -> NewTrackingEvent -> ApiDefaults -> Settled TrackingEvent;
  located : string -> NewDriverLocation -> ApiDefaults -> Settled unit;
  latest : string -> ApiDefaults -> Settled (option DriverLocation)
}.

Variable backend : Backend.

Definition rethrow {A : Type} (body : Async A) : Async A :=
  try_catch body (fun err => throw (PlainError (toApiErrorMessage err))).

Definition getTrackingTimeline (orderId : string)
  : Async (list TrackingEvent) :=
  rethrow
    (await (fun d => (timeline backend ("/orders/" ++ orderId ++ "/tracking") d, d))
           (fun res => resolve res)).

Definition addTrackingEvent (orderId : string) (event : NewTrackingEvent)
  : Async TrackingEvent :=
  rethrow
    (await (fun d => (added backend ("/orders/" ++ orderId ++ "/tracking") event d, d))
           (fun res => resolve res)).

Definition updateDriverLocation (payload : NewDriverLocation) : Async unit :=
  rethrow
    (await (fun d => (located backend
                        ("/orders/" ++ orderId_of payload ++ "/driver-location")
                        payload d, d))
           (fun _ => resolve tt)).

Definition getLatestDriverLocation (orderId : string)
  : Async (option DriverLocation) :=
  rethrow
    (await (fun d => (latest backend
                        ("/orders/" ++ orderId ++ "/driver-location/latest") d, d))
           (fun res => resolve res)).

End Tracking.

Arguments mkBackend {_ _ _ _} _ _ _ _.
Arguments timeline {_ _ _ _} b _ _.
Arguments added {_ _ _ _} b _ _ _.
Arguments located {_ _ _ _} b _ _ _.
Arguments latest {_ _ _ _} b _ _.
Arguments getTrackingTimeline {_ _ _ _} backend orderId _.
Arguments addTrackingEvent {_ _ _ _} backend orderId event _.
Arguments updateDriverLocation {_ _ _ _} orderId_of backend payload _.
Arguments getLatestDriverLocation {_ _ _ _} backend orderId _.

(** What the caller of a wrapped request gets to see of the backend's
    answer. *)
Definition seen_by_caller {A : Type} (answer : Settled A) : Settled A :=
  match answer with
  | Fulfilled a => Fulfilled a
  | Rejected err => Rejected (PlainError (toApiErrorMessage err))
  end.

(** *** [getBaseUrl] *)

Definition is_slash (c : Ascii.ascii) : bool := Ascii.eqb c "/"%char.

(** [s.replace(/\/+$/, "")]: drop the slashes the string ends with. *)
Fixpoint trim_trailing_slashes (s : string) : string :=
  match s with
  | EmptyString => EmptyString
  | String c rest =>
      match trim_trailing_slashes rest with
      | EmptyString => if is_slash c then EmptyString else String c EmptyString
      | String c' rest' => String c (String c' rest')
      end
  end.

Definition default_base : string := "http://localhost:3000/api".

(** [fromVite] and [fromProcess] are the two environment entries, absent
    when the variable (or the environment itself) is undefined. *)
Definition getBaseUrl (fromVite fromProcess : option string) : string :=
  match or_else fromVite (or_else fromProcess (Some default_base)) with
  | Some base => trim_trailing_slashes base
  | None => trim_trailing_slashes default_base
  end.

Fixpoint slashes (n : nat) : string :=
  match n with
  | O => EmptyString
  | S n' => String "/"%char (slashes n')
  end.

Fixpoint last_char (s : string) : option Ascii.ascii :=
  match s with
  | EmptyString => None
  | String c EmptyString => Some c
  | String _ rest => last_char rest
  end.

(** *** [requireEnv] of [src/firebaseconfig.ts] *)

Definition Env : Type := string -> option string.

Definition requireEnv (env : Env) (name : string) : string + Thrown :=
  let value := env name in
  match value with
  | Some v =>
      if truthy value then inl v
      else inr (PlainError ("Missing required env var: " ++ name))
  | None => inr (PlainError ("Missing required env var: " ++ name))
  end.

End RestClient.

(** ** Account sign-up ([Signup.tsx]) *)

Module Signup.

Local Open Scope nat_scope.
Local Open Scope string_scope.

Inductive Role : Type :=
| customer | rider | driver | merchant | sub_station | warehouse | supervisor.

Definition ROLE_REQUIREMENTS (r : Role) : list string :=
  match r with
  | rider => ["Driving License (Front)"; "Driving License (Back)"; "NRC / ID Card"]
  | driver => ["Driving License (Heavy)"; "Vehicle Registration"; "NRC / ID Card"]
  | merchant => ["Business License"; "Shop Photo"; "Tax ID"]
  | sub_station => ["Manager ID"; "Branch Permit"]
  | warehouse => ["NRC / ID Card"; "Recommendation Letter"]
  | supervisor => ["NRC / ID Card"; "Staff ID"]
  | customer => ["NRC / ID Card"]
  end.

Record FormData : Type := mkForm {
  email : string;
  password : string;
  fullName : string;
  phone : string;
  role : Role;
  branchId : string
}.

Definition MAX_FILE_MB : N := 5.

(** A browser [File]: its name and its size in bytes. *)
Record File : Type := mkFile {
  file_name : string;
  size : N
}.

(** [Record<string, File | null>]: the bindings, the latest first. *)
Definition Files : Type := list (string * option File).

(** [files[docName]] as the code uses it, in a truth test: a binding to
    [null] and no binding at all are both falsy. *)
Fixpoint get_file (files : Files) (docName : string) : option File :=
  match files with
  | [] => None
  | (k, v) :: rest => if String.eqb k docName then v else get_file rest docName
  end.

Record SignupState : Type := mkSignup {
  loading : bool;
  error : option string;
  formData : FormData;
  files : Files
}.

Definition initial : SignupState :=
  mkSignup false None (mkForm "" "" "" "" customer "") [].

Definition requiredDocs (st : SignupState) : list string :=
  ROLE_REQUIREMENTS (role (formData st)).

Definition dquote : string := String (Ascii.ascii_of_nat 34) EmptyString.

Definition handleFileChange (docName : string) (file : option File)
                            (st : SignupState) : SignupState :=
  let too_large :=
    match file with
    | Some f => N.ltb (MAX_FILE_MB * 1024 * 1024) (size f)
    | None => false
    end in
  if too_large
  then mkSignup (loading st)
                (Some ("File too large: " ++ dquote ++ docName ++ dquote
                       ++ ". Max 5MB."))
                (formData st) (files st)
  else mkSignup (loading st) None (formData st) ((docName, file) :: files st).

Fixpoint first_missing (files : Files) (docs : list string) : option string :=
  match docs with
  | [] => None
  | docName :: rest =>
      match get_file files docName with
      | None => Some docName
      | Some _ => first_missing files rest
      end
  end.

Definition missingRequiredDoc (st : SignupState) : option string :=
  first_missing (files st) (requiredDocs st).

(** The [onChange] of the role selector: [setFiles({})] and then
    [updateForm({ role })]. *)
Definition changeRole (r : Role) (st : SignupState) : SignupState :=
  let p := formData st in
  mkSignup (loading st) (error st)
           (mkForm (email p) (password p) (fullName p) (phone p) r (branchId p))
           [].

(** What a Firebase call can throw. *)
Record FirebaseError : Type := mkFbError {
  code : option string;
  message : option string
}.

Definition formatFirebaseError (err : FirebaseError) : string :=
  let fallback :=
    match message err with
    | Some m => m
    | None => "Registration failed. Please try again."
    end in
  match code err with
  | Some c =>
      if String.eqb c "auth/email-already-in-use"
      then "This email is already registered. Please log in instead."
      else if String.eqb c "auth/invalid-email"
      then "Please enter a valid email address."
      else if String.eqb c "auth/weak-password"
      then "Password is too weak. Use at least 8 characters."
      else if String.eqb c "auth/network-request-failed"
      then "Network error. Please check your connection and try again."
      else fallback
  | None => fallback
  end.

(** *** The storage path of an uploaded document *)

Definition in_range (lo hi : nat) (c : ascii) : bool :=
  Nat.leb lo (nat_of_ascii c) && Nat.leb (nat_of_ascii c) hi.

(** [\w]. *)
Definition is_word (c : ascii) : bool :=
  in_range 48 57 c || in_range 65 90 c || in_range 97 122 c
  || Ascii.eqb c "_"%char.

(** [\s] among the 8-bit characters. *)
Definition is_space (c : ascii) : bool :=
  in_range 9 13 c || Ascii.eqb c " "%char.

(** The character class [[^\w\-(). ]]. *)
Definition is_unsafe (c : ascii) : bool :=
  negb (is_word c || Ascii.eqb c "-"%char || Ascii.eqb c "("%char
        || Ascii.eqb c ")"%char || Ascii.eqb c "."%char
        || Ascii.eqb c " "%char).

(** [s.replace(/[class]+/g, "_")]: every maximal run of characters of the
    class becomes one underscore; [in_run] tells that the previous
    character was of the class. *)
Fixpoint replace_runs (class : ascii -> bool) (in_run : bool) (s : string)
  : string :=
  match s with
  | EmptyString => EmptyString
  | String c rest =>
      if class c
      then if in_run then replace_runs class true rest
           else String "_"%char (replace_runs class true rest)
      else String c (replace_runs class false rest)
  end.

Fixpoint all_chars (p : ascii -> bool) (s : string) : bool :=
  match s with
  | EmptyString => true
  | String c rest => p c && all_chars p rest
  end.

(** Characters that may stand in a segment of a storage path: word
    characters, hyphen, parentheses and the dot. *)
Definition is_path_safe (c : ascii) : bool :=
  is_word c || Ascii.eqb c "-"%char || Ascii.eqb c "("%char
  || Ascii.eqb c ")"%char || Ascii.eqb c "."%char.

Definition safeName (docName : string) : string :=
  replace_runs is_space false (replace_runs is_unsafe false docName).

Definition show_N (n : N) : string := NilZero.string_of_uint (N.to_uint n).

Definition storagePath (uid docName : string) (now : N) : string :=
  "uploads/" ++ uid ++ "/" ++ safeName docName ++ "_" ++ show_N now.

(** *** [handleRegister] *)

(** The document written to [users/{uid}]; [createdAt] is the server
    timestamp sentinel and carries no data. *)
Record ProfileDoc : Type := mkDoc {
  d_uid : string;
  d_email : string;
  d_displayName : string;
  d_phone : string;
  d_role : Role;
  d_branchId : option string;
  d_status : string;
  d_documents : list (string * string);
  d_authorityLevel : nat;
  d_mustchangepassword : bool
}.

(** The calls made to the outside, in the order they are made. *)
Inductive Action : Type :=
| CreateUser (email password : string)
| UploadBytes (path : string) (file : File)
| GetDownloadURL (path : string)
| SetDoc (uid : string) (doc : ProfileDoc)
| UpdateProfile (uid : string) (displayName : string)
| Navigate (to : string).

(** How the outside answers: each call fulfils ([inr]) or throws ([inl]);
    [Date_now i] is the clock read at the [i]-th upload. *)
Record Firebase : Type := mkFirebase {
  createUserWithEmailAndPassword : string -> string -> FirebaseError + string;
  uploadBytes : string -> File -> FirebaseError + unit;
  getDownloadURL : string -> FirebaseError + string;
  setDoc : string -> ProfileDoc -> FirebaseError + unit;
  updateProfile : string -> string -> FirebaseError + unit;
  Date_now : nat -> N
}.

Section Register.

(** [String.prototype.trim]. *)
Variable trim : string -> string.

Variable fb : Firebase.

(** The upload loop over [requiredDocs]; [i] counts the uploads made and
    [urls] is [documentUrls] so far. *)
Fixpoint uploadDocs (uid : string) (files : Files) (docs : list string)
                    (i : nat) (urls : list (string * string))
                    (log : list Action)
  : (FirebaseError + list (string * string)) * list Action :=
  match docs with
  | [] => (inr urls, log)
  | docName :: rest =>
      match get_file files docName with
      | None => uploadDocs uid files rest i urls log
      | Some file =>
          let path := storagePath uid docName (Date_now fb i) in
          let log1 := (log ++ [UploadBytes path file])%list in
          match uploadBytes fb path file with
          | inl e => (inl e, log1)
          | inr _ =>
              let log2 := (log1 ++ [GetDownloadURL path])%list in
              match getDownloadURL fb path with
              | inl e => (inl e, log2)
              | inr url =>
                  uploadDocs uid files rest (S i)
                             (urls ++ [(docName, url)])%list log2
              end
          end
      end
  end.

(** What a completed upload loop has done for the documents [docs],
    starting at upload number [i]: each document had a file, the file was
    sent to the document's storage path and accepted, the URL was then
    asked for that path, and [urls] and [calls] record exactly these URLs
    and calls, in order. *)
Fixpoint uploaded (uid : string) (files : Files) (docs : list string) (i : nat)
                  (urls : list (string * string)) (calls : list Action)
  : Prop :=
  match docs with
  | [] => urls = [] /\ calls = []
  | docName :: rest =>
      let path := storagePath uid docName (Date_now fb i) in
      exists file url urls' calls',
        get_file files docName = Some file
        /\ uploadBytes fb path file = inr tt
        /\ getDownloadURL fb path = inr url
        /\ urls = (docName, url) :: urls'
        /\ calls = UploadBytes path file :: GetDownloadURL path :: calls'
        /\ uploaded uid files rest (S i) urls' calls'
  end.

Definition branch_or_null (b : string) : option string :=
  match trim b with
  | EmptyString => None
  | t => Some t
  end.

(** The [try] block: the outcome and the calls made. *)
Definition register_steps (st : SignupState)
  : (FirebaseError + unit) * list Action :=
  let form := formData st in
  let log0 := [CreateUser (trim (email form)) (password form)] in
  match createUserWithEmailAndPassword fb (trim (email form)) (password form) with
  | inl e => (inl e, log0)
  | inr uid =>
      match uploadDocs uid (files st) (requiredDocs st) 0 [] log0 with
      | (inl e, log1) => (inl e, log1)
      | (inr documentUrls, log1) =>
          let doc :=
            mkDoc uid (trim (email form)) (trim (fullName form))
                  (trim (phone form)) (role form)
                  (branch_or_null (branchId form))
                  "pending" documentUrls 1 false in
          let log2 := (log1 ++ [SetDoc uid doc])%list in
          match setDoc fb uid doc with
          | inl e => (inl e, log2)
          | inr _ =>
              let log3 := (log2 ++ [UpdateProfile uid (trim (fullName form))])%list in
              match updateProfile fb uid (trim (fullName form)) with
              | inl e => (inl e, log3)
              | inr _ => (inr tt, (log3 ++ [Navigate "/pending-approval"])%list)
              end
          end
      end
  end.

Definition nonempty (s : string) : bool :=
  match s with
  | EmptyString => false
  | _ => true
  end.

(** The test [requiredDocs.length > 0 && missingRequiredDoc]. *)
Definition blocked_on (st : SignupState) : option string :=
  if Nat.ltb 0 (List.length (requiredDocs st))
  then match missingRequiredDoc st with
       | Some d => if nonempty d then Some d else None
       | None => None
       end
  else None.

Definition handleRegister (st : SignupState) : SignupState * list Action :=
  match blocked_on st with
  | Some d =>
      (mkSignup (loading st) (Some ("Please upload: " ++ d))
                (formData st) (files st), [])
  | None =>
      let (outcome, log) := register_steps st in
      let shown :=
        match outcome with
        | inl e => Some (formatFirebaseError e)
        | inr _ => None
        end in
      (mkSignup false shown (formData st) (files st), log)
  end.

End Register.

(** A backend that accepts every call, a customer who has picked the one
    document required, and the profile document written for that
    customer. *)
Definition accepting : Firebase :=
  mkFirebase (fun _ _ => inr "uid-1") (fun _ _ => inr tt)
             (fun _ => inr "https://files/nrc") (fun _ _ => inr tt)
             (fun _ _ => inr tt) (fun _ => 1700000000000%N).

Definition kyaw : SignupState :=
  mkSignup false None
           (mkForm "kyaw@example.com" "secret12" "Kyaw Kyaw" "+95912345"
                   customer "")
           [("NRC / ID Card", Some (mkFile "nrc.png" 4000000))].

Definition kyaw_doc : ProfileDoc :=
  mkDoc "uid-1" "kyaw@example.com" "Kyaw Kyaw" "+95912345" customer
        None "pending" [("NRC / ID Card", "https://files/nrc")] 1 false.

(** What the visitor does on the form before submitting. *)
Inductive FormEvent : Type :=
| PickRole (r : Role)
| PickFile (docName : string) (file : option File).

Definition form_step (st : SignupState) (e : FormEvent) : SignupState :=
  match e with
  | PickRole r => changeRole r st
  | PickFile docName file => handleFileChange docName file st
  end.

Definition form_run (es : list FormEvent) (st : SignupState) : SignupState :=
  fold_left form_step es st.

(** Every file held is within the size limit. *)
Definition small_files (files : Files) : Prop :=
  forall k f, In (k, Some f) files -> (size f <= 5 * 1024 * 1024)%N.

(** The two calls made by the upload loop. *)
Definition is_upload_action (a : Action) : bool :=
  match a with
  | UploadBytes _ _ => true
  | GetDownloadURL _ => true
  | _ => false
  end.

End Signup.

(** ** Shipment tracking on the Send/Quote/Track page *)

Module Tracking.

Local Open Scope nat_scope.
Local Open Scope string_scope.

Record TrackingEvent : Type := mkEvent {
  ev_status : string;
  ev_note : option string;
  ev_location : option string
}.

(** [ShipmentDoc]; the two timestamps are left out. *)
Record ShipmentDoc : Type := mkShipment {
  trackingId : option string;
  status : option string;
  senderName : option string;
  receiverName : option string;
  origin : option string;
  destination : option string;
  events : option (list TrackingEvent)
}.

(** What a Firestore call can throw. *)
Record ReadError : Type := mkReadError {
  message : option string
}.

(** *** Document references

    [doc(db, "shipments", id)] joins its path components, refuses a
    component containing ["//"], splits on ["/"] dropping empty pieces, and
    refuses a path with an odd number of segments. *)

Definition is_slash (c : ascii) : bool := Ascii.eqb c "/"%char.

Fixpoint has_double_slash (s : string) : bool :=
  match s with
  | EmptyString => false
  | String a rest =>
      match rest with
      | EmptyString => false
      | String b _ => (is_slash a && is_slash b) || has_double_slash rest
      end
  end.

Definition nonempty (s : string) : bool :=
  match s with
  | EmptyString => false
  | _ => true
  end.

(** The pieces of [s] between slashes, empty pieces dropped; [cur] is the
    piece being read. *)
Fixpoint segments_from (cur s : string) : list string :=
  match s with
  | EmptyString => if nonempty cur then [cur] else []
  | String c rest =>
      if is_slash c
      then if nonempty cur then cur :: segments_from EmptyString rest
           else segments_from EmptyString rest
      else segments_from (cur ++ String c EmptyString) rest
  end.

Definition path_segments (s : string) : list string :=
  segments_from EmptyString s.

(** An id with no slash in it and at least one character. *)
Fixpoint no_slash (s : string) : bool :=
  match s with
  | EmptyString => true
  | String c rest => negb (is_slash c) && no_slash rest
  end.

Definition is_plain_id (s : string) : bool := nonempty s && no_slash s.

(** The [shipments] collection as the store holds it: its documents with
    their ids, in the order the store lists them; the documents of the
    collections nested below them, by the segments that follow
    ["shipments"]; and which direct reads and which queries fail. *)
Record Store : Type := mkStore {
  shipments : list (string * ShipmentDoc);
  nested : list (list string * ShipmentDoc);
  getDoc_error : list string -> option ReadError;
  getDocs_error : string -> option ReadError
}.

Fixpoint list_string_eqb (a b : list string) : bool :=
  match a, b with
  | [], [] => true
  | x :: a', y :: b' => String.eqb x y && list_string_eqb a' b'
  | _, _ => false
  end.

(** The document a reference below ["shipments"] denotes, if it exists;
    [below] are the segments after the collection name. *)
Definition lookup (store : Store) (below : list string) : option ShipmentDoc :=
  match below with
  | [id] =>
      option_map snd (find (fun d => String.eqb (fst d) id) (shipments store))
  | _ =>
      option_map snd (find (fun d => list_string_eqb (fst d) below)
                           (nested store))
  end.

Section Sdk.

(** The error [doc] throws for a path it refuses. *)
Variable invalid_reference : string -> ReadError.

(** [doc(db, "shipments", id)]: the segments after the collection name. *)
Definition doc_ref (id : string) : ReadError + list string :=
  if has_double_slash id then inl (invalid_reference id)
  else
    let below := path_segments id in
    if Nat.even (List.length ("shipments" :: below))
    then inr below
    else inl (invalid_reference id).

(** [getDoc(ref)]: the snapshot's data, absent when the document does not
    exist. *)
Definition getDoc (store : Store) (below : list string)
  : ReadError + option ShipmentDoc :=
  match getDoc_error store below with
  | Some e => inl e
  | None => inr (lookup store below)
  end.

Definition has_trackingId (id : string) (d : string * ShipmentDoc) : bool :=
  match trackingId (snd d) with
  | Some t => String.eqb t id
  | None => false
  end.

(** [getDocs(query(collection(db, "shipments"),
    where("trackingId", "==", id), limit(1)))]. *)
Definition getDocs_by_trackingId (store : Store) (id : string)
  : ReadError + list (string * ShipmentDoc) :=
  match getDocs_error store id with
  | Some e => inl e
  | None => inr (firstn 1 (filter (has_trackingId id) (shipments store)))
  end.

(** [direct.id]: the last segment of the reference. *)
Definition ref_id (below : list string) : string := last below EmptyString.

Definition tryFindShipment (store : Store) (id : string)
  : ReadError + option (string * ShipmentDoc) :=
  match doc_ref id with
  | inl e => inl e
  | inr below =>
      match getDoc store below with
      | inl e => inl e
      | inr (Some data) => inr (Some (ref_id below, data))
      | inr None =>
          match getDocs_by_trackingId store id with
          | inl e => inl e
          | inr [] => inr None
          | inr (d :: _) => inr (Some d)
          end
      end
  end.

Inductive TrackState : Type :=
| Idle
| Loading
| NotFound
| Failed (message : string)
| Success (shipment : ShipmentDoc) (docId : string).

(** [e?.message ?? "Failed to track. Try again."]. *)
Definition shown_message (e : ReadError) : string :=
  match message e with
  | Some m => m
  | None => "Failed to track. Try again."
  end.

(** [String.prototype.trim]. *)
Variable trim : string -> string.

(** The states [onSubmitTrack] sets, in order. *)
Definition onSubmitTrack (store : Store) (entered : string) : list TrackState :=
  let id := trim entered in
  match tryFindShipment store id with
  | inr None => [Loading; NotFound]
  | inr (Some found) => [Loading; Success (snd found) (fst found)]
  | inl e => [Loading; Failed (shown_message e)]
  end.

End Sdk.

(** A store in which every read succeeds. *)
Definition reads_succeed (store : Store) : Prop :=
  (forall below, getDoc_error store below = None)
  /\ (forall id, getDocs_error store id = None).

End Tracking.

(** ** Theorems: pricing engine *)

Module PricingFacts.

Import JS Pricing.

Local Open Scope Q_scope.

Lemma Math_round_window (x : Q) :
  Math_round x - (1 # 2) <= x /\ x < Math_round x + (1 # 2).
Proof.
  unfold Math_round.
  pose proof (Qfloor_le (x + (1 # 2))) as Hlo.
  pose proof (Qlt_floor (x + (1 # 2))) as Hhi.
  rewrite inject_Z_plus in Hhi. change (inject_Z 1) with 1 in Hhi.
  split; lra.
Qed.

Lemma Math_round_mono (x y : Q) : x <= y -> Math_round x <= Math_round y.
Proof.
  intros Hxy. unfold Math_round.
  rewrite <- Zle_Qle. apply Qfloor_resp_le. lra.
Qed.

Lemma serviceMultiplier_literal (t : ServiceTier) :
  serviceMultiplier (service_literal t) = spec_service_multiplier t.
Proof. destruct t; reflexivity. Qed.

Lemma serviceMultiplier_pos (s : string) : 0 < serviceMultiplier s.
Proof.
  unfold serviceMultiplier.
  destruct (String.eqb s "Same-day"); [reflexivity|].
  destruct (String.eqb s "Express"); reflexivity.
Qed.

Lemma regionMultiplier_pos (r : string) : 0 < regionMultiplier r.
Proof.
  unfold regionMultiplier.
  destruct (String.eqb r "Yangon"); [reflexivity|].
  destruct (String.eqb r "Other"); reflexivity.
Qed.

Lemma raw_estimatePrice (t : ServiceTier) (r : string) (w : Q) :
  raw {| serviceType := service_literal t;
         destinationRegion := r;
         chargeableWeightKg := w |} = spec_raw t r w.
Proof.
  unfold raw, spec_raw; cbn [serviceType destinationRegion chargeableWeightKg].
  rewrite serviceMultiplier_literal. reflexivity.
Qed.

Lemma estimatePriceMMK_nearest (input : PriceInput) :
  nearest_100_half_up (raw input) (estimatePriceMMK input).
Proof.
  unfold nearest_100_half_up, estimatePriceMMK.
  destruct (Math_round_window (raw input / 100)) as [Hlo Hhi].
  assert (Hdiv : raw input / 100 * 100 == raw input) by (field).
  split.
  - exists (Qfloor (raw input / 100 + (1 # 2))). unfold Math_round. ring.
  - split; lra.
Qed.

Lemma nearest_100_half_up_unique (x p q : Q) :
  nearest_100_half_up x p -> nearest_100_half_up x q -> p == q.
Proof.
  intros [[n Hn] [Hp1 Hp2]] [[m Hm] [Hq1 Hq2]].
  assert (Hnm : (n < m + 1)%Z).
  { rewrite Zlt_Qlt, inject_Z_plus. change (inject_Z 1) with 1. lra. }
  assert (Hmn : (m < n + 1)%Z).
  { rewrite Zlt_Qlt, inject_Z_plus. change (inject_Z 1) with 1. lra. }
  assert (n = m) by lia. subst m. lra.
Qed.

Lemma raw_mono (s r : string) (w1 w2 : Q) :
  w1 <= w2 ->
  raw (mkPriceInput s r w1) <= raw (mkPriceInput s r w2).
Proof.
  intros Hw. unfold raw, base, perKg.
  cbn [serviceType destinationRegion chargeableWeightKg].
  pose proof (serviceMultiplier_pos s) as Hs.
  pose proof (regionMultiplier_pos r) as Hr.
  apply Qmult_le_compat_r; [|lra].
  apply Qmult_le_compat_r; lra.
Qed.

Lemma volume_nonneg (l w h : Q) :
  0 <= l -> 0 <= w -> 0 <= h -> 0 <= l * w * h / 5000.
Proof.
  intros Hl Hw Hh.
  assert (H : 0 <= l * w * h).
  { apply Qmult_le_0_compat; [apply Qmult_le_0_compat|]; assumption. }
  apply Qle_shift_div_l; [reflexivity|]. lra.
Qed.

Lemma or_zero_eq (x : Q) : or_zero x == x.
Proof.
  unfold or_zero. destruct (Qeq_bool x 0) eqn:E; [|reflexivity].
  apply Qeq_bool_eq in E. symmetry. exact E.
Qed.

(** The two worked examples of the design document. *)
Example estimate_standard_yangon_1kg : estimatePrice Standard "Yangon" 1 == 3700.
Proof. vm_compute. reflexivity. Qed.

Example estimate_sameday_other_1kg : estimatePrice SameDay "Other" 1 == 8300.
Proof. vm_compute. reflexivity. Qed.

(** In exact arithmetic the estimate is the tariff rounded to the nearest
    hundred, halves going up. *)
Lemma exact_estimate_is_rounded_tariff (t : ServiceTier) (r : string) (w : Q) :
  nearest_100_half_up (spec_raw t r w) (estimatePrice t r w).
Proof. rewrite <- raw_estimatePrice. apply estimatePriceMMK_nearest. Qed.



(** C7. For actual and volumetric weights that are both at least zero the
    chargeable weight is the larger of the two: it bounds both, it is one
    of them, and when the two are equal it is that common value, whichever
    operand comes first. *)
Theorem chargeableKg_is_max (actual volumetric : Q) :
  0 <= actual -> 0 <= volumetric ->
  (actual <= chargeableKg_of actual volumetric
   /\ volumetric <= chargeableKg_of actual volumetric
   /\ (chargeableKg_of actual volumetric == actual
       \/ chargeableKg_of actual volumetric == volumetric))
  /\ (actual == volumetric ->
      chargeableKg_of actual volumetric == actual
      /\ chargeableKg_of actual volumetric == volumetric
      /\ chargeableKg_of volumetric actual == chargeableKg_of actual volumetric).
Proof.
  intros _ _.
  unfold chargeableKg_of, Number, Math_max.
  pose proof (or_zero_eq actual) as Ea.
  pose proof (or_zero_eq volumetric) as Ev.
  assert (Hmax : forall a b : Q,
             a <= Qmax a b /\ b <= Qmax a b /\ (Qmax a b == a \/ Qmax a b == b)).
  { intros a b. split; [apply Q.le_max_l|]. split; [apply Q.le_max_r|].
    destruct (Q.max_spec a b) as [[_ E]|[_ E]]; [right|left]; exact E. }
  destruct (Hmax (or_zero actual) volumetric) as [H1 [H2 H3]].
  destruct (Hmax (or_zero volumetric) actual) as [G1 [G2 G3]].
  split.
  - split; [lra|]. split; [lra|].
    destruct H3 as [H3|H3]; [left|right]; lra.
  - intros E. destruct H3 as [H3|H3], G3 as [G3|G3]; repeat split; lra.
Qed.

Lemma chargeableKg_is_max_witness :
  chargeableKg_of (3 # 2) (6 # 4) == 3 # 2
  /\ chargeableKg_of (3 # 2) (6 # 4) == 6 # 4
  /\ chargeableKg_of (6 # 4) (3 # 2) == chargeableKg_of (3 # 2) (6 # 4).
Proof.
  assert (Ha : 0 <= 3 # 2) by (vm_compute; discriminate).
  assert (Hv : 0 <= 6 # 4) by (vm_compute; discriminate).
  apply (proj2 (chargeableKg_is_max (3 # 2) (6 # 4) Ha Hv)).
  vm_compute. reflexivity.
Defined.



End PricingFacts.

(** ** Theorems: the pricing engine in binary64 arithmetic *)

Module Binary64Facts.

Import JS Pricing PricingFacts.

Local Open Scope Q_scope.

Lemma pow2_pos (k : Z) : 0 < Binary64.pow2 k.
Proof. apply Qpower_0_lt. reflexivity. Qed.

Lemma pow2_plus (a b : Z) :
  Binary64.pow2 (a + b) == Binary64.pow2 a * Binary64.pow2 b.
Proof. apply Qpower_plus. discriminate. Qed.

Lemma pow2_le (a b : Z) : (a <= b)%Z -> Binary64.pow2 a <= Binary64.pow2 b.
Proof. intros H. apply Qpower_le_compat_l; [exact H|discriminate]. Qed.

Lemma pow2_lt_inv (a b : Z) : Binary64.pow2 a < Binary64.pow2 b -> (a < b)%Z.
Proof. intros H. apply (Qpower_lt_compat_l_inv 2); [exact H|reflexivity]. Qed.

Lemma pow2_Z (n : Z) : (0 <= n)%Z -> Binary64.pow2 n == inject_Z (2 ^ n).
Proof. intros H. symmetry. apply (Zpower_Qpower 2 n H). Qed.

Lemma pow2_succ (k : Z) : Binary64.pow2 (k + 1) == 2 * Binary64.pow2 k.
Proof. rewrite pow2_plus. change (Binary64.pow2 1) with 2. ring. Qed.

(** [ilog2] brackets a positive rational between two powers of two. *)
Lemma ilog2_spec (a : Q) :
  0 < a ->
  Binary64.pow2 (Binary64.ilog2 a) <= a
  /\ a < Binary64.pow2 (Binary64.ilog2 a + 1).
Proof.
  intros Ha. destruct a as [p q].
  assert (Hp : (0 < p)%Z).
  { unfold Qlt in Ha. cbn in Ha. lia. }
  unfold Binary64.ilog2. cbn [Qnum Qden].
  set (lp := Z.log2 p). set (lq := Z.log2 (Z.pos q)).
  destruct (Z.log2_spec p Hp) as [Hp1 Hp2]. fold lp in Hp1, Hp2.
  destruct (Z.log2_spec (Z.pos q) eq_refl) as [Hq1 Hq2]. fold lq in Hq1, Hq2.
  assert (Hlp : (0 <= lp)%Z) by apply Z.log2_nonneg.
  assert (Hlq : (0 <= lq)%Z) by apply Z.log2_nonneg.
  rewrite Zle_Qle, <- pow2_Z in Hp1 by exact Hlp.
  rewrite Zlt_Qlt, <- pow2_Z in Hp2 by lia.
  rewrite Zle_Qle, <- pow2_Z in Hq1 by exact Hlq.
  rewrite Zlt_Qlt, <- pow2_Z in Hq2 by lia.
  replace (Z.succ lp) with (lp + 1)%Z in Hp2 by lia.
  replace (Z.succ lq) with (lq + 1)%Z in Hq2 by lia.
  rewrite pow2_succ in Hp2, Hq2.
  assert (Hc : Binary64.pow2 (lp - lq) * Binary64.pow2 lq == Binary64.pow2 lp).
  { rewrite <- pow2_plus. replace (lp - lq + lq)%Z with lp by lia. reflexivity. }
  assert (Ea : (p # q) * inject_Z (Z.pos q) == inject_Z p).
  { rewrite (Qmake_Qdiv p q). field. discriminate. }
  assert (HD : 0 < inject_Z (Z.pos q)) by reflexivity.
  pose proof (pow2_pos lq) as HL2.
  pose proof (pow2_pos (lp - lq)) as HC.
  set (A := p # q) in *. set (D := inject_Z (Z.pos q)) in *.
  set (P := inject_Z p) in *.
  destruct (Qle_bool (Binary64.pow2 (lp - lq)) A) eqn:E.
  - apply Qle_bool_iff in E. split; [exact E|].
    rewrite pow2_succ.
    apply (Qmult_lt_r _ _ D HD).
    assert (H1 : Binary64.pow2 (lp - lq) * Binary64.pow2 lq
                 <= Binary64.pow2 (lp - lq) * D).
    { apply Qmult_le_l; [exact HC|exact Hq1]. }
    lra.
  - assert (E' : A < Binary64.pow2 (lp - lq)).
    { apply Qnot_le_lt. intros H. apply Qle_bool_iff in H. congruence. }
    replace (lp - lq - 1 + 1)%Z with (lp - lq)%Z by lia.
    split; [|exact E'].
    assert (Hh : Binary64.pow2 (lp - lq) == 2 * Binary64.pow2 (lp - lq - 1)).
    { rewrite <- pow2_succ. replace (lp - lq - 1 + 1)%Z with (lp - lq)%Z by lia.
      reflexivity. }
    apply Qlt_le_weak.
    apply (Qmult_lt_r _ _ D HD).
    assert (H1 : Binary64.pow2 (lp - lq - 1) * D
                 < Binary64.pow2 (lp - lq - 1) * (2 * Binary64.pow2 lq)).
    { apply Qmult_lt_l; [apply pow2_pos|exact Hq2]. }
    assert (Hc2 : Binary64.pow2 (lp - lq - 1) * (2 * Binary64.pow2 lq)
                  == Binary64.pow2 lp).
    { rewrite <- Hc, Hh. ring. }
    lra.
Qed.

Lemma round_even_near (m : Q) :
  inject_Z (Binary64.round_even m) - m <= 1 # 2
  /\ m - inject_Z (Binary64.round_even m) <= 1 # 2.
Proof.
  unfold Binary64.round_even.
  pose proof (Qfloor_le m) as Hlo.
  pose proof (Qlt_floor m) as Hhi.
  rewrite inject_Z_plus in Hhi. change (inject_Z 1) with 1 in Hhi.
  destruct (Qcompare (m - inject_Z (Qfloor m)) (1 # 2)) eqn:E.
  - apply Qeq_alt in E.
    destruct (Z.even (Qfloor m)).
    + split; lra.
    + rewrite inject_Z_plus. change (inject_Z 1) with 1. split; lra.
  - apply Qlt_alt in E. split; lra.
  - apply Qgt_alt in E. rewrite inject_Z_plus. change (inject_Z 1) with 1.
    split; lra.
Qed.

Lemma round_even_Z (m : Q) (z : Z) :
  m == inject_Z z -> Binary64.round_even m = z.
Proof.
  intros H. unfold Binary64.round_even.
  rewrite (Qfloor_comp m (inject_Z z) H), Qfloor_Z.
  assert (E : Qcompare (m - inject_Z z) (1 # 2) = Lt).
  { apply (proj1 (Qlt_alt _ _)). lra. }
  rewrite E. reflexivity.
Qed.

(** Rounding moves a positive number by at most half a unit in the last
    place. *)
Lemma nearest_error (a : Q) :
  0 < a ->
  Binary64.nearest a - a <= Binary64.pow2 (Binary64.ulp_exp a) * (1 # 2)
  /\ a - Binary64.nearest a <= Binary64.pow2 (Binary64.ulp_exp a) * (1 # 2).
Proof.
  intros Ha. unfold Binary64.nearest.
  set (u := Binary64.pow2 (Binary64.ulp_exp a)).
  assert (Hu : 0 < u) by apply pow2_pos.
  destruct (round_even_near (a / u)) as [H1 H2].
  set (n := inject_Z (Binary64.round_even (a / u))) in *.
  assert (Em : a / u * u == a) by (field; lra).
  apply (Qmult_le_compat_r _ _ u) in H1; [|lra].
  apply (Qmult_le_compat_r _ _ u) in H2; [|lra].
  split; lra.
Qed.

(** Half a unit in the last place is at most [2^-53] of the number, or
    [2^-1075] among the subnormal numbers (bounded here by [2^-100]). *)
Lemma ulp_small (a : Q) :
  0 < a ->
  Binary64.pow2 (Binary64.ulp_exp a) * (1 # 2)
  <= (1 # 9007199254740992) * a + (1 # 1267650600228229401496703205376).
Proof.
  intros Ha. unfold Binary64.ulp_exp.
  destruct (ilog2_spec a Ha) as [Hlo _].
  destruct (Z.max_spec (Binary64.ilog2 a) (-1022)) as [[Hc ->]|[Hc ->]].
  - assert (E : Binary64.pow2 (-1022 - 52) * (1 # 2)
                <= 1 # 1267650600228229401496703205376).
    { apply Qle_trans with (Binary64.pow2 (-100)).
      - replace (-1022 - 52)%Z with (-1074)%Z by lia.
        pose proof (pow2_le (-1074) (-100) ltac:(lia)).
        pose proof (pow2_pos (-1074)). lra.
      - vm_compute. discriminate. }
    assert (0 <= (1 # 9007199254740992) * a).
    { apply Qmult_le_0_compat; [discriminate|lra]. }
    lra.
  - replace (Binary64.ilog2 a - 52)%Z with (Binary64.ilog2 a + -52)%Z by lia.
    rewrite pow2_plus.
    assert (E : Binary64.pow2 (-52) * (1 # 2) == 1 # 9007199254740992)
      by reflexivity.
    assert (H : Binary64.pow2 (Binary64.ilog2 a) * (1 # 9007199254740992)
                <= a * (1 # 9007199254740992)).
    { apply Qmult_le_compat_r; [exact Hlo|discriminate]. }
    setoid_replace (Binary64.pow2 (Binary64.ilog2 a) * Binary64.pow2 (-52) * (1 # 2))
      with (Binary64.pow2 (Binary64.ilog2 a) * (1 # 9007199254740992))
      by (rewrite <- E; ring).
    lra.
Qed.

Lemma fl_comp (x y : Q) : x == y -> Binary64.fl x = Binary64.fl y.
Proof.
  intros H. unfold Binary64.fl. rewrite (Qred_complete x y H). reflexivity.
Qed.

(** The rounding error of one operation on a non-negative value. *)
Lemma fl_error (x : Q) :
  0 <= x ->
  Binary64.fl x - x
  <= (1 # 9007199254740992) * x + (1 # 1267650600228229401496703205376)
  /\ x - Binary64.fl x
     <= (1 # 9007199254740992) * x + (1 # 1267650600228229401496703205376).
Proof.
  intros Hx. unfold Binary64.fl.
  pose proof (Qred_correct x) as Er.
  set (x' := Qred x) in *.
  rewrite Qred_correct.
  destruct (Qcompare x' 0) eqn:E.
  - apply Qeq_alt in E. split; lra.
  - apply Qlt_alt in E. lra.
  - apply Qgt_alt in E.
    destruct (nearest_error x' E) as [H1 H2].
    pose proof (ulp_small x' E) as H3.
    split; lra.
Qed.

(** Rounding leaves a binary64 number as it is. *)
Lemma fl_exact (M j : Z) :
  (0 < M < 2 ^ 53)%Z -> (-1074 <= j)%Z ->
  Binary64.fl (inject_Z M * Binary64.pow2 j) == inject_Z M * Binary64.pow2 j.
Proof.
  intros [HM1 HM2] Hj. unfold Binary64.fl.
  pose proof (Qred_correct (inject_Z M * Binary64.pow2 j)) as Er.
  set (x' := Qred (inject_Z M * Binary64.pow2 j)) in *.
  rewrite Qred_correct.
  assert (HMq : inject_Z 0 < inject_Z M) by (rewrite <- Zlt_Qlt; exact HM1).
  change (inject_Z 0) with 0 in HMq.
  assert (HMq2 : inject_Z M < Binary64.pow2 53).
  { rewrite pow2_Z by lia. rewrite <- Zlt_Qlt. exact HM2. }
  pose proof (pow2_pos j) as Hpj.
  assert (Hpos : 0 < x').
  { rewrite Er. apply Qmult_lt_0_compat; assumption. }
  assert (E : Qcompare x' 0 = Gt) by (apply (proj1 (Qgt_alt _ _)); exact Hpos).
  rewrite E. unfold Binary64.nearest.
  destruct (ilog2_spec x' Hpos) as [Hlo _].
  assert (Hk : (Binary64.ulp_exp x' <= j)%Z).
  { unfold Binary64.ulp_exp.
    assert (Hlt : Binary64.pow2 (Binary64.ilog2 x') < Binary64.pow2 (53 + j)).
    { rewrite pow2_plus. apply Qle_lt_trans with x'; [exact Hlo|].
      rewrite Er. apply Qmult_lt_compat_r; assumption. }
    apply pow2_lt_inv in Hlt. lia. }
  set (k := Binary64.ulp_exp x') in *.
  assert (Em : x' / Binary64.pow2 k == inject_Z (M * 2 ^ (j - k))).
  { rewrite inject_Z_mult, <- pow2_Z by lia.
    rewrite Er. replace j with ((j - k) + k)%Z at 1 by lia.
    rewrite pow2_plus. field.
    pose proof (pow2_pos k). lra. }
  rewrite (round_even_Z _ _ Em).
  rewrite inject_Z_mult, <- pow2_Z by lia.
  replace j with ((j - k) + k)%Z at 2 by lia.
  rewrite pow2_plus. ring.
Qed.

Lemma fl_exact_int (N : Z) :
  (0 <= N < 2 ^ 53)%Z -> Binary64.fl (inject_Z N) == inject_Z N.
Proof.
  intros [H1 H2].
  destruct (Z.eq_dec N 0) as [->|Hn]; [reflexivity|].
  rewrite (fl_comp (inject_Z N) (inject_Z N * Binary64.pow2 0)).
  - rewrite fl_exact by lia. change (Binary64.pow2 0) with 1. ring.
  - change (Binary64.pow2 0) with 1. ring.
Qed.

Lemma fl_exact_half (K : Z) :
  (0 <= K < 2 ^ 52)%Z ->
  Binary64.fl (inject_Z K + (1 # 2)) == inject_Z K + (1 # 2).
Proof.
  intros [H1 H2].
  assert (E : inject_Z K + (1 # 2) == inject_Z (2 * K + 1) * Binary64.pow2 (-1)).
  { rewrite inject_Z_plus, inject_Z_mult. change (Binary64.pow2 (-1)) with (1 # 2).
    change (inject_Z 2) with 2. change (inject_Z 1) with 1. field. }
  rewrite (fl_comp _ _ E), fl_exact by lia. symmetry. exact E.
Qed.

(** An operation whose exact result is between 0 and [10^18] does not
    overflow. *)
Lemma round64_fl (x : Q) :
  0 <= x -> x <= 1000000000000000000 ->
  Binary64.round64 x = Some (Binary64.fl x).
Proof.
  intros H0 H1. unfold Binary64.round64.
  destruct (fl_error x H0) as [E1 E2].
  assert (Hm : 2000000000000000000 <= Binary64.max_double)
    by (vm_compute; discriminate).
  assert (Hr : Qle_bool (Qabs (Binary64.fl x)) Binary64.max_double = true).
  { apply Qle_bool_iff, Qabs_Qle_condition. split; lra. }
  rewrite Hr. reflexivity.
Qed.

Lemma literal_service (t : ServiceTier) :
  Binary64.literal (serviceMultiplier (service_literal t))
  = match t with
    | Standard => 1
    | Express => 3039929748475085 # 2251799813685248
    | SameDay => 8106479329266893 # 4503599627370496
    end.
Proof. destruct t; vm_compute; reflexivity. Qed.

Lemma literal_region (r : string) :
  Binary64.literal (regionMultiplier r)
  = if String.eqb r "Yangon" then 1
    else if String.eqb r "Other" then 5 # 4
    else 2589569785738035 # 2251799813685248.
Proof.
  unfold regionMultiplier.
  destruct (String.eqb r "Yangon"); [vm_compute; reflexivity|].
  destruct (String.eqb r "Other"); vm_compute; reflexivity.
Qed.

(** One rounded operation of the chain: the operation does not overflow,
    and its error is recorded for the arithmetic that follows. *)
Ltac rounded_step x :=
  let E := fresh "E" in
  let H := fresh "Herr" in
  assert (E : Binary64.round64 x = Some (Binary64.fl x))
    by (apply round64_fl; lra);
  rewrite E; cbn [Binary64.bind];
  pose proof (fl_error x ltac:(lra)) as H.

(** The raw value the engine computes, for weights up to [10^12]: it
    exists (no overflow) and is within [2^-50] of the exact tariff,
    relatively. *)
Lemma raw_near_tariff (t : ServiceTier) (r : string) (w : Q) :
  0 <= w -> w <= 1000000000000 ->
  exists d : Q,
    Binary64.raw (mkPriceInput (service_literal t) r w) = Some d
    /\ d - spec_raw t r w <= spec_raw t r w * (1 # 1125899906842624)
    /\ spec_raw t r w - d <= spec_raw t r w * (1 # 1125899906842624)
    /\ 2500 <= spec_raw t r w
    /\ spec_raw t r w <= 2700000000005625.
Proof.
  intros H0 H1.
  unfold Binary64.raw, Binary64.mul64, Binary64.add64, base, perKg.
  cbn [serviceType destinationRegion chargeableWeightKg].
  rewrite literal_service, literal_region.
  unfold spec_raw, spec_region_multiplier.
  rounded_step (1200 * w).
  rounded_step (2500 + Binary64.fl (1200 * w)).
  destruct t; cbn [spec_service_multiplier];
    destruct (String.eqb r "Yangon");
    [| destruct (String.eqb r "Other")
     | | destruct (String.eqb r "Other")
     | | destruct (String.eqb r "Other")].
  all: match goal with
       | |- context [Binary64.round64 ?x] => rounded_step x
       end.
  all: match goal with
       | |- context [Binary64.round64 ?x] => rounded_step x
       end.
  all: eexists; split; [reflexivity|]; repeat split; lra.
Qed.

(** [Math.round] of a value between 0 and [5 * 10^13], times 100, is
    computed without error. *)
Lemma hundreds_exact (e : Q) :
  0 <= e -> e <= 50000000000000 ->
  Binary64.mul64 (Math_round e) 100 = Some (Binary64.fl (Math_round e * 100))
  /\ Binary64.fl (Math_round e * 100) == Math_round e * 100.
Proof.
  intros H0 H1.
  destruct (Math_round_window e) as [Hlo Hhi].
  unfold Math_round in *.
  set (n := Qfloor (e + (1 # 2))) in *.
  assert (Hn0 : (0 <= n)%Z).
  { unfold n. rewrite <- (Qfloor_Z 0). apply Qfloor_resp_le.
    change (inject_Z 0) with 0. lra. }
  assert (Hn1 : (n <= 50000000000001)%Z).
  { rewrite Zle_Qle. change (inject_Z 50000000000001) with 50000000000001.
    lra. }
  assert (Hq0 : 0 <= inject_Z n).
  { change 0 with (inject_Z 0). rewrite <- Zle_Qle. exact Hn0. }
  split.
  - unfold Binary64.mul64. apply round64_fl; lra.
  - assert (E : inject_Z n * 100 == inject_Z (n * 100)).
    { rewrite inject_Z_mult. reflexivity. }
    rewrite (fl_comp _ _ E), E. apply fl_exact_int.
    change (2 ^ 53)%Z with 9007199254740992%Z. lia.
Qed.

(** The estimate for weights up to [10^12]: the engine's raw value [d]
    and price [p] exist, [p] is [Math.round] of the rounded quotient
    [d / 100] times 100 with no further error, and [d] is near the exact
    tariff. *)
Lemma estimate_anatomy (t : ServiceTier) (r : string) (w : Q) :
  0 <= w -> w <= 1000000000000 ->
  exists d p : Q,
    Binary64.raw (mkPriceInput (service_literal t) r w) = Some d
    /\ Binary64.estimatePrice t r w = Some p
    /\ p == Math_round (Binary64.fl (d / 100)) * 100
    /\ d - spec_raw t r w <= spec_raw t r w * (1 # 1125899906842624)
    /\ spec_raw t r w - d <= spec_raw t r w * (1 # 1125899906842624)
    /\ 2500 <= spec_raw t r w
    /\ spec_raw t r w <= 2700000000005625.
Proof.
  intros H0 H1.
  destruct (raw_near_tariff t r w H0 H1) as [d [Hraw [Hd1 [Hd2 [Hx1 Hx2]]]]].
  set (X := spec_raw t r w) in *.
  unfold Binary64.estimatePrice, Binary64.estimatePriceMMK.
  rewrite Hraw. cbn [Binary64.bind]. unfold Binary64.div64.
  assert (E100 : d / 100 == d * (1 # 100)) by field.
  rounded_step (d / 100).
  destruct (hundreds_exact (Binary64.fl (d / 100))) as [Hm He]; [lra|lra|].
  rewrite Hm.
  exists d, (Binary64.fl (Math_round (Binary64.fl (d / 100)) * 100)).
  repeat split; try assumption.
Qed.

Lemma multiple_of_100 (e : Q) : exists n : Z, Math_round e * 100 == 100 * inject_Z n.
Proof. exists (Qfloor (e + (1 # 2))). unfold Math_round. ring. Qed.

(** The price is the half-up rounding to a hundred of a value [y] (a
    hundred times the rounded quotient) that is within the tolerance of
    the exact tariff. *)
Lemma rounded_value_near_tariff (t : ServiceTier) (r : string) (w : Q) :
  0 <= w -> w <= 1000000000000 ->
  exists p y : Q,
    Binary64.estimatePrice t r w = Some p
    /\ nearest_100_half_up y p
    /\ y - spec_raw t r w <= Binary64.tolerance (spec_raw t r w)
    /\ spec_raw t r w - y <= Binary64.tolerance (spec_raw t r w)
    /\ 0 <= Binary64.tolerance (spec_raw t r w)
    /\ Binary64.tolerance (spec_raw t r w) <= 5.
Proof.
  intros H0 H1.
  destruct (estimate_anatomy t r w H0 H1)
    as [d [p [_ [Hp [Ep [Hd1 [Hd2 [Hx1 Hx2]]]]]]]].
  set (X := spec_raw t r w) in *.
  unfold Binary64.tolerance.
  assert (E100 : d / 100 == d * (1 # 100)) by field.
  pose proof (fl_error (d / 100) ltac:(lra)) as [He1 He2].
  set (e := Binary64.fl (d / 100)) in *.
  destruct (Math_round_window e) as [Hlo Hhi].
  destruct (multiple_of_100 e) as [n Hn].
  exists p, (100 * e). split; [exact Hp|]. split.
  - split; [exists n; lra|]. split; lra.
  - repeat split; lra.
Qed.

(** The two worked examples of the design document, in binary64. *)
Example binary64_standard_yangon_1kg :
  Binary64.estimatePrice Standard "Yangon" 1 = Some 3700.
Proof. vm_compute. reflexivity. Qed.

Example binary64_sameday_other_1kg :
  Binary64.estimatePrice SameDay "Other" 1 = Some 8300.
Proof. vm_compute. reflexivity. Qed.

(** At 3.75 kg to Mandalay the product [7000 * 1.15] is computed as
    [8050 - 2^-40], and the quotient by 100 lies below 80.5. *)
Example binary64_standard_mandalay_3_75kg :
  Binary64.is_double (375 # 100) = true
  /\ Binary64.raw (mkPriceInput "Standard" "Mandalay" (375 # 100))
     = Some (8851068603596799 # 1099511627776)
  /\ (8851068603596799 # 1099511627776) == 8050 - (1 # 1099511627776)
  /\ Binary64.estimatePrice Standard "Mandalay" (375 # 100) = Some 8000.
Proof.
  split; [vm_compute; reflexivity|].
  split; [vm_compute; reflexivity|].
  split; vm_compute; reflexivity.
Qed.

(** Far beyond the weights a parcel can have the price is no longer a
    multiple of 100 (at [10^14] kg the last product exceeds [2^53]), and
    for the largest binary64 weight there is no finite price. *)
Example price_at_1e14_kg_not_multiple_of_100 :
  Binary64.is_double 100000000000000 = true
  /\ Binary64.estimatePrice Express "Mandalay" 100000000000000
     = Some 186300000000003904.
Proof. split; vm_compute; reflexivity. Qed.

Example no_finite_price_at_largest_weight :
  Binary64.estimatePrice Standard "Yangon" Binary64.max_double = None.
Proof. vm_compute. reflexivity. Qed.

(** On every service, every region and a sample of weights, [Binary64.raw]
    and its quotient by 100 are the numbers the kernel's binary64
    arithmetic computes. *)
Example raw_agrees_with_kernel_floats :
  forallb (fun s =>
    forallb (fun r =>
      forallb (Binary64.agrees_with_floats s r) Binary64.sample_weights)
      REGIONS)
    SERVICES = true.
Proof. vm_compute. reflexivity. Qed.

(** The formula of the design document fails at 3.75 kg, Standard, to
    Mandalay: the exact tariff is 8050, whose half-up rounding is 8100,
    and the engine returns 8000. *)
Lemma tariff_formula_fails_at_3_75kg :
  Binary64.estimatePrice Standard "Mandalay" (375 # 100) = Some 8000
  /\ spec_raw Standard "Mandalay" (375 # 100) == 8050
  /\ nearest_100_half_up (spec_raw Standard "Mandalay" (375 # 100)) 8100
  /\ ~ nearest_100_half_up (spec_raw Standard "Mandalay" (375 # 100)) 8000.
Proof.
  split; [vm_compute; reflexivity|].
  split; [vm_compute; reflexivity|].
  split.
  - split; [exists 81%Z; reflexivity|].
    split; vm_compute; [discriminate|reflexivity].
  - intros [_ [_ H]]. vm_compute in H. discriminate H.
Qed.

(** C1 (as amended).  For every service tier, region and chargeable
    weight that is a binary64 number between 0 and [10^12], the engine
    returns a price; the price is a multiple of 100 within
    [50 + T / 2^49] of the exact tariff
    [T = (2500 + 1200 * w) * serviceMultiplier * regionMultiplier]
    (multipliers 1.0 / 1.35 / 1.8 and 1.0 / 1.25 / 1.15 as in the design
    document); it is [T] rounded to the nearest hundred with halves up, or
    a multiple of 100 next to it; and it is that rounding whenever [T] is
    at least [T / 2^49] away from every value halfway between two
    multiples of 100. *)
Theorem estimatePrice_near_rounded_tariff (t : ServiceTier) (r : string) (w : Q) :
  0 <= w -> w <= 1000000000000 -> Binary64.is_double w = true ->
  exists p : Q,
    Binary64.estimatePrice t r w = Some p
    /\ (exists n : Z, p == 100 * inject_Z n)
    /\ p - 50 - Binary64.tolerance (spec_raw t r w) <= spec_raw t r w
    /\ spec_raw t r w <= p + 50 + Binary64.tolerance (spec_raw t r w)
    /\ (forall q : Q,
          nearest_100_half_up (spec_raw t r w) q ->
          (p == q \/ p == q - 100 \/ p == q + 100)
          /\ (q - 50 + Binary64.tolerance (spec_raw t r w) <= spec_raw t r w ->
              spec_raw t r w < q + 50 - Binary64.tolerance (spec_raw t r w) ->
              p == q)).
Proof.
  intros H0 H1 _.
  destruct (rounded_value_near_tariff t r w H0 H1)
    as [p [y [Hp [[[n Hn] [Hy1 Hy2]] [Ht1 [Ht2 [Ht0 Ht5]]]]]]].
  set (X := spec_raw t r w) in *. set (tol := Binary64.tolerance X) in *.
  exists p. split; [exact Hp|]. split; [exists n; exact Hn|].
  split; [lra|]. split; [lra|].
  intros q [[m Hm] [Hq1 Hq2]].
  assert (Hnm : (m - 2 < n)%Z).
  { rewrite Zlt_Qlt. unfold Z.sub. rewrite inject_Z_plus.
    change (inject_Z (- (2))) with (-2). lra. }
  assert (Hmn : (n < m + 2)%Z).
  { rewrite Zlt_Qlt, inject_Z_plus. change (inject_Z 2) with 2. lra. }
  split.
  - assert (Hc : n = m \/ n = (m - 1)%Z \/ n = (m + 1)%Z) by lia.
    destruct Hc as [Hc|[Hc|Hc]]; subst n.
    + left. lra.
    + right. left. unfold Z.sub in Hn. rewrite inject_Z_plus in Hn.
      change (inject_Z (- (1))) with (-1) in Hn. lra.
    + right. right. rewrite inject_Z_plus in Hn.
      change (inject_Z 1) with 1 in Hn. lra.
  - intros Hin1 Hin2.
    apply (nearest_100_half_up_unique y).
    + split; [exists n; exact Hn|]. split; assumption.
    + split; [exists m; exact Hm|]. split; lra.
Qed.

Lemma estimatePrice_near_rounded_tariff_witness :
  exists p : Q,
    Binary64.estimatePrice SameDay "Other" 1 = Some p
    /\ (exists n : Z, p == 100 * inject_Z n)
    /\ p - 50 - Binary64.tolerance (spec_raw SameDay "Other" 1)
       <= spec_raw SameDay "Other" 1
    /\ spec_raw SameDay "Other" 1
       <= p + 50 + Binary64.tolerance (spec_raw SameDay "Other" 1)
    /\ (forall q : Q,
          nearest_100_half_up (spec_raw SameDay "Other" 1) q ->
          (p == q \/ p == q - 100 \/ p == q + 100)
          /\ (q - 50 + Binary64.tolerance (spec_raw SameDay "Other" 1)
              <= spec_raw SameDay "Other" 1 ->
              spec_raw SameDay "Other" 1
              < q + 50 - Binary64.tolerance (spec_raw SameDay "Other" 1) ->
              p == q)).
Proof.
  apply (estimatePrice_near_rounded_tariff SameDay "Other" 1).
  - vm_compute. discriminate.
  - vm_compute. discriminate.
  - vm_compute. reflexivity.
Defined.

(** An exact tariff lying halfway between two multiples of 100 is not
    always rounded up: at 3.75 kg, Standard, to Mandalay the tariff is
    [100 * 80 + 50] and the engine returns 8000, not [100 * 81]. *)
Lemma exact_half_is_rounded_down :
  spec_raw Standard "Mandalay" (375 # 100) == 100 * inject_Z 80 + 50
  /\ Binary64.estimatePrice Standard "Mandalay" (375 # 100) = Some 8000
  /\ ~ 8000 == 100 * inject_Z (80 + 1).
Proof.
  split; [vm_compute; reflexivity|].
  split; [vm_compute; reflexivity|].
  intros H. vm_compute in H. discriminate H.
Qed.

(** C5 (as amended).  For every tier, region and chargeable weight that
    is a binary64 number between 0 and [10^12], the price the engine
    returns is a multiple of 100, and when the raw value the engine
    computes (the binary64 result of
    [(base + perKg * w) * serviceMultiplier * regionMultiplier]) lies
    exactly halfway between two multiples of 100 the price is the larger
    one. *)
Theorem estimatePrice_rounds_computed_half_up (t : ServiceTier) (r : string) (w : Q) :
  0 <= w -> w <= 1000000000000 -> Binary64.is_double w = true ->
  exists d p : Q,
    Binary64.raw (mkPriceInput (service_literal t) r w) = Some d
    /\ Binary64.estimatePrice t r w = Some p
    /\ (exists n : Z, p == 100 * inject_Z n)
    /\ (forall k : Z, d == 100 * inject_Z k + 50 ->
                      p == 100 * inject_Z (k + 1)).
Proof.
  intros H0 H1 _.
  destruct (estimate_anatomy t r w H0 H1)
    as [d [p [Hraw [Hp [Ep [Hd1 [Hd2 [Hx1 Hx2]]]]]]]].
  set (X := spec_raw t r w) in *.
  exists d, p. split; [exact Hraw|]. split; [exact Hp|]. split.
  - destruct (multiple_of_100 (Binary64.fl (d / 100))) as [n Hn].
    exists n. lra.
  - intros k Hk.
    assert (Hk0 : (0 <= k)%Z).
    { rewrite Zle_Qle. change (inject_Z 0) with 0. lra. }
    assert (Hk1 : (k < 2 ^ 52)%Z).
    { rewrite Zlt_Qlt. change (inject_Z (2 ^ 52)) with 4503599627370496. lra. }
    assert (E : d / 100 == inject_Z k + (1 # 2)) by (rewrite Hk; field).
    rewrite (fl_comp _ _ E) in Ep.
    assert (Er : Math_round (Binary64.fl (inject_Z k + (1 # 2)))
                 == inject_Z (k + 1)).
    { unfold Math_round.
      assert (E2 : Binary64.fl (inject_Z k + (1 # 2)) + (1 # 2)
                   == inject_Z (k + 1)).
      { rewrite (fl_exact_half k (conj Hk0 Hk1)), inject_Z_plus.
        change (inject_Z 1) with 1. lra. }
      rewrite (Qfloor_comp _ _ E2), Qfloor_Z. reflexivity. }
    rewrite Ep, Er. ring.
Qed.

Lemma estimatePrice_rounds_computed_half_up_witness :
  Binary64.raw (mkPriceInput "Standard" "Yangon" (1 # 8)) = Some 2650
  /\ Binary64.estimatePrice Standard "Yangon" (1 # 8) = Some 2700
  /\ 2700 == 100 * inject_Z (26 + 1).
Proof.
  assert (H0 : 0 <= 1 # 8) by (vm_compute; discriminate).
  assert (H1 : 1 # 8 <= 1000000000000) by (vm_compute; discriminate).
  assert (Hd : Binary64.is_double (1 # 8) = true) by (vm_compute; reflexivity).
  destruct (estimatePrice_rounds_computed_half_up Standard "Yangon" (1 # 8)
              H0 H1 Hd) as [d [p [Hraw [Hp [_ Hhalf]]]]].
  assert (Ed : Binary64.raw (mkPriceInput "Standard" "Yangon" (1 # 8))
               = Some 2650) by (vm_compute; reflexivity).
  assert (Ep : Binary64.estimatePrice Standard "Yangon" (1 # 8) = Some 2700)
    by (vm_compute; reflexivity).
  split; [exact Ed|]. split; [exact Ep|].
  change (service_literal Standard) with "Standard"%string in Hraw.
  rewrite Ed in Hraw. rewrite Ep in Hp.
  injection Hraw as <-. injection Hp as <-.
  apply (Hhalf 26%Z). vm_compute. reflexivity.
Defined.

(** X30. Away from the halfway points the engine's price is the estimate
    of exact arithmetic: for a binary64 weight between 0 and [10^12]
    whose exact tariff [T] is at least [T / 2^49] away from every value
    halfway between two multiples of 100, the binary64 computation
    returns exactly [Pricing.estimatePrice]. *)
Theorem binary64_estimate_is_exact_estimate (t : ServiceTier) (r : string) (w : Q) :
  0 <= w -> w <= 1000000000000 -> Binary64.is_double w = true ->
  Pricing.estimatePrice t r w - 50 + Binary64.tolerance (spec_raw t r w)
  <= spec_raw t r w ->
  spec_raw t r w
  < Pricing.estimatePrice t r w + 50 - Binary64.tolerance (spec_raw t r w) ->
  exists p : Q,
    Binary64.estimatePrice t r w = Some p /\ p == Pricing.estimatePrice t r w.
Proof.
  intros H0 H1 _ Hlo Hhi.
  destruct (rounded_value_near_tariff t r w H0 H1)
    as [p [y [Hp [Hy [Ht1 [Ht2 _]]]]]].
  exists p. split; [exact Hp|].
  apply (nearest_100_half_up_unique y); [exact Hy|].
  destruct (exact_estimate_is_rounded_tariff t r w) as [Hm _].
  split; [exact Hm|]. split; lra.
Qed.

Lemma binary64_estimate_is_exact_estimate_witness :
  exists p : Q,
    Binary64.estimatePrice Express "Mandalay" (5 # 2) = Some p
    /\ p == Pricing.estimatePrice Express "Mandalay" (5 # 2).
Proof.
  apply (binary64_estimate_is_exact_estimate Express "Mandalay" (5 # 2)).
  - vm_compute. discriminate.
  - vm_compute. discriminate.
  - vm_compute. reflexivity.
  - vm_compute. discriminate.
  - vm_compute. reflexivity.
Defined.

End Binary64Facts.

(** ** Theorems: profile sync *)

Module ProfileSyncFacts.

Import ProfileSync.

Local Open Scope nat_scope.
Local Open Scope string_scope.

Ltac run_hook :=
  unfold Shared.run, Shared.deliver, OneShot.run, OneShot.deliver,
    exec, notifyAuth, Shared.authCallback, Snapshot2.authCallback, OneShot.authCallback,
    Snapshot2.onNext, Snapshot2.onError,
    Shared.onNext, Shared.onError, OneShot.resumed, OneShot.rejected,
    OneShot.getDoc, bind, ret, setUser, setProfile, setLoading, publish,
    onSnapshot, unsubscribe, unsubAuth;
  cbn.

(** *** What the snapshot variants do get right *)

Lemma find_handle_fresh (w : World) (u : User) :
  find_handle (nextHandle w) ((nextHandle w, u) :: listeners w) = Some u.
Proof. cbn. rewrite Nat.eqb_refl. reflexivity. Qed.

(** Logging out publishes the cleared triple at once and registers no
    listener. *)
Lemma shared_logout_clears (w : World) :
  authListener w = true ->
  state (Shared.deliver (AuthChanged None) w) = mkSync None None false
  /\ listeners (Shared.deliver (AuthChanged None) w) = listeners w
  /\ nextHandle (Shared.deliver (AuthChanged None) w) = nextHandle w.
Proof. intros Hopen. run_hook. rewrite Hopen. cbn. auto. Qed.

(** A missing document and a failing subscription both end in the
    default customer profile of the identity. *)
Lemma shared_defaults (w : World) (u : User) (e : Event) :
  authListener w = true ->
  e = DocSnapshot (nextHandle w) None \/ e = DocError (nextHandle w) ->
  state (Shared.run [AuthChanged (Some u); e] w)
  = mkSync (Some u) (Some (defaultProfile u)) false.
Proof.
  intros Hopen [-> | ->]; run_hook; rewrite Hopen; cbn;
    rewrite Nat.eqb_refl; reflexivity.
Qed.

(** The second snapshot variant leaves the same state and the same
    listeners behind its auth callback. *)
Lemma snapshot2_same_state (u : option User) (w : World) :
  state (exec (Snapshot2.authCallback u) w)
  = state (exec (Shared.authCallback u) w)
  /\ listeners (exec (Snapshot2.authCallback u) w)
     = listeners (exec (Shared.authCallback u) w).
Proof. destruct u; run_hook; auto. Qed.

(** Once the effect is cleaned up, the auth stream is no longer heard. *)
Lemma shared_auth_ignored_after_unmount (w : World) (u : option User) :
  Shared.deliver (AuthChanged u) (Shared.deliver Unmount w)
  = Shared.deliver Unmount w.
Proof. reflexivity. Qed.

(** *** The listener that is never released *)

(** No auth event and no unmount removes a registered document listener:
    the cleanup returned by the auth callback is never called. *)
Lemma shared_listener_survives (w : World) (e : Event) (h : Handle) (u : User) :
  h < nextHandle w ->
  find_handle h (listeners w) = Some u ->
  (forall h', e <> DocError h') ->
  find_handle h (listeners (Shared.deliver e w)) = Some u
  /\ h < nextHandle (Shared.deliver e w).
Proof.
  intros Hlt Hfind Hne.
  destruct e as [[u'|]|h' snap|h'|]; run_hook.
  - destruct (authListener w); cbn; [|auto].
    destruct (Nat.eqb_spec h (nextHandle w)); [lia|]. auto.
  - destruct (authListener w); cbn; auto.
  - destruct (find_handle h' (listeners w)); cbn; auto.
    destruct (snap_exists snap); cbn; auto.
  - exfalso. apply (Hne h'). reflexivity.
  - auto.
Qed.

Lemma shared_run_cons (e : Event) (es : list Event) (w : World) :
  Shared.run (e :: es) w = Shared.run es (Shared.deliver e w).
Proof. reflexivity. Qed.

(** Along any run in which the store reports no error, a registered
    document listener stays registered: identity changes, logouts and the
    teardown all leave it in place. *)
Lemma shared_listener_never_released (es : list Event) :
  forall (w : World) (h : Handle) (u : User),
    h < nextHandle w ->
    find_handle h (listeners w) = Some u ->
    forallb (fun e => negb (is_doc_error e)) es = true ->
    find_handle h (listeners (Shared.run es w)) = Some u.
Proof.
  induction es as [|e es IH]; intros w h u Hlt Hfind Hes.
  - exact Hfind.
  - cbn [forallb] in Hes. apply andb_true_iff in Hes as [He Hes].
    rewrite shared_run_cons.
    destruct (shared_listener_survives w e h u Hlt Hfind) as [Hfind' Hlt'].
    + intros h' ->. discriminate He.
    + apply IH; assumption.
Qed.

(** After teardown a run of auth events changes nothing at all. *)
Lemma shared_auth_run_ignored_after_unmount (es : list Event) (w : World) :
  authListener w = false ->
  forallb is_auth_event es = true ->
  Shared.run es w = w.
Proof.
  revert w. induction es as [|e es IH]; intros w Hclosed Hes.
  - reflexivity.
  - cbn [forallb] in Hes. apply andb_true_iff in Hes as [He Hes].
    destruct e; try discriminate He.
    rewrite shared_run_cons. cbn [Shared.deliver]. rewrite Hclosed.
    apply IH; assumption.
Qed.

(** Had the handle been called, the listener would have been silent. *)
Lemma find_handle_removed (h : Handle) (l : list (Handle * User)) :
  find_handle h (remove_handle h l) = None.
Proof.
  induction l as [|[h' u] l IH]; [reflexivity|].
  cbn. destruct (Nat.eqb_spec h h') as [->|Hne]; [exact IH|].
  cbn. destruct (Nat.eqb_spec h h'); [contradiction|exact IH].
Qed.

Lemma unsubscribed_listener_is_silent (w : World) (h : Handle) (e : Event) :
  e = DocError h \/ (exists snap, e = DocSnapshot h snap) ->
  Shared.deliver e (exec (unsubscribe h) w) = exec (unsubscribe h) w.
Proof.
  intros [->|[snap ->]]; unfold Shared.deliver, exec, unsubscribe; cbn;
    rewrite find_handle_removed; reflexivity.
Qed.

(** Whatever the two identities and the stored profile, a snapshot from
    the first identity's listener lands in the state of the second. *)
Lemma shared_stale_snapshot (u v : User) (p : UserProfile) :
  let w := Shared.run [AuthChanged (Some u); AuthChanged (Some v)] Shared.mount in
  find_handle 0 (listeners w) = Some u
  /\ state (Shared.deliver (DocSnapshot 0 (Some p)) w)
     = mkSync (Some v) (Some p) false.
Proof. split; reflexivity. Qed.

(** C2. When identity U is followed by identity V while U's document
    subscription is open, that subscription should be closed and nothing
    of U should be published afterwards.  The hook does not do so: after
    the switch U's listener (handle 0) is still registered next to V's,
    its next snapshot is published, and the state ends with V's identity
    and U's profile, also when V's own profile had already arrived. *)
Theorem switch_publishes_stale_profile :
  let w := Shared.run [AuthChanged (Some userU); AuthChanged (Some userV)]
                      Shared.mount in
  listeners w = [(1, userV); (0, userU)]
  /\ state w = mkSync (Some userV) None true
  /\ state (Shared.run [DocSnapshot 0 (Some managerProfile)] w)
     = mkSync (Some userV) (Some managerProfile) false
  /\ state (Shared.run [DocSnapshot 1 None;
                        DocSnapshot 0 (Some managerProfile)] w)
     = mkSync (Some userV) (Some managerProfile) false.
Proof. repeat split; reflexivity. Qed.

(** C6. A null identity should publish the cleared triple, open no new
    subscription, and the triple should stay until a non-null identity
    arrives.  The first two hold ([shared_logout_clears]); the last does
    not: the listener of the identity that logged out is still
    registered, and both a late snapshot and a read failure put a profile
    back while the identity is null. *)
Theorem logout_state_does_not_persist :
  let w := Shared.run [AuthChanged (Some userU); AuthChanged None]
                      Shared.mount in
  state w = mkSync None None false
  /\ listeners w = [(0, userU)]
  /\ state (Shared.run [DocError 0] w)
     = mkSync None (Some (defaultProfile userU)) false
  /\ state (Shared.run [DocSnapshot 0 (Some managerProfile)] w)
     = mkSync None (Some managerProfile) false.
Proof. repeat split; reflexivity. Qed.

(** *** Teardown *)

Lemma rendered_run_cons (e : Event) (es : list Event) (c : Rendered.Component) :
  Rendered.run (e :: es) c = Rendered.run es (Rendered.deliver e c).
Proof. reflexivity. Qed.

Lemma rendered_unmounted_step (e : Event) (c : Rendered.Component) :
  Rendered.mounted c = false ->
  Rendered.mounted (Rendered.deliver e c) = false
  /\ state (Rendered.hook (Rendered.deliver e c)) = state (Rendered.hook c)
  /\ published (Rendered.hook (Rendered.deliver e c))
     = published (Rendered.hook c).
Proof.
  intros Hm. destruct e; unfold Rendered.deliver; rewrite ?Hm; cbn;
    auto.
Qed.

Lemma rendered_unmounted_run (es : list Event) (c : Rendered.Component) :
  Rendered.mounted c = false ->
  Rendered.mounted (Rendered.run es c) = false
  /\ state (Rendered.hook (Rendered.run es c)) = state (Rendered.hook c)
  /\ published (Rendered.hook (Rendered.run es c))
     = published (Rendered.hook c).
Proof.
  revert c. induction es as [|e es IH]; intros c Hm; [auto|].
  rewrite rendered_run_cons.
  destruct (rendered_unmounted_step e c Hm) as [Hm' [Hs Hp]].
  destruct (IH _ Hm') as [Hm'' [Hs' Hp']].
  rewrite Hs', Hp', Hs, Hp. auto.
Qed.

(** The listener that teardown leaves registered does keep firing; its
    setter calls are the ones that are dropped. *)
Example leaked_listener_fires_into_the_void :
  let c := Rendered.run [AuthChanged (Some userU); Unmount;
                         DocSnapshot 0 (Some managerProfile)]
                        Rendered.mount in
  listeners (Rendered.hook c) = [(0, userU)]
  /\ Rendered.discarded c = [SetProfile (Some managerProfile); SetLoading false]
  /\ Rendered.rendered c = mkSync (Some userU) None true.
Proof. repeat split; reflexivity. Qed.


(** *** The one-shot variant *)

(** C3. A missing document, or a failing read, should end in the default
    customer profile of the identity.  The snapshot variants do that
    ([shared_defaults]); the one-shot variant does not: a missing
    document gives a null profile, and a failing read leaves the profile
    null and lets the rejection escape the callback. *)
Theorem oneshot_missing_document_gives_null_profile :
  state (OneShot.run [AuthChanged (Some userU); DocSnapshot 0 None]
                     OneShot.mount)
  = mkSync (Some userU) None false
  /\ state (OneShot.run [AuthChanged (Some userU); DocError 0] OneShot.mount)
     = mkSync (Some userU) None false
  /\ unhandled (OneShot.run [AuthChanged (Some userU); DocError 0]
                            OneShot.mount) = 1
  /\ state (Shared.run [AuthChanged (Some userU); DocSnapshot 0 None]
                       Shared.mount)
     = mkSync (Some userU) (Some (defaultProfile userU)) false.
Proof. repeat split; reflexivity. Qed.

End ProfileSyncFacts.

(** ** Theorems: REST client *)

Module RestApiFacts.

Import RestApi.

Local Open Scope string_scope.

Lemma setAuthToken_null (d : ApiDefaults) :
  setAuthToken None d = (Fulfilled tt, mkDefaults None).
Proof. reflexivity. Qed.

(** A successful login stores the bearer token. *)
Example login_stores_token :
  let server : Server := fun _ _ => Fulfilled (mkPayload "t0k3n") in
  snd (login server (mkDefaults None)) = mkDefaults (Some "Bearer t0k3n").
Proof. reflexivity. Qed.

(** C9. Every call of [logout] ends with the stored token removed and
    with a fulfilled promise, whether the server accepts or rejects the
    request and whatever was stored before. *)
Theorem logout_always_clears_token (server : Server) (d : ApiDefaults) :
  logout server d = (Fulfilled tt, mkDefaults None).
Proof.
  unfold logout, try_finally, try_catch, await, api_post, resolve.
  destruct (server "/auth/logout" d); reflexivity.
Qed.

End RestApiFacts.

(** ** Theorems: the quote form *)

Module QuoteFormFacts.

Import JS Pricing QuoteForm.

Local Open Scope Q_scope.
Local Open Scope string_scope.

Lemma multipliers_at_least_one (s r : string) :
  1 <= serviceMultiplier s /\ 1 <= regionMultiplier r.
Proof.
  unfold serviceMultiplier, regionMultiplier.
  destruct (String.eqb s "Same-day"), (String.eqb s "Express"),
    (String.eqb r "Yangon"), (String.eqb r "Other");
    split; vm_compute; discriminate.
Qed.

Lemma multipliers_at_most (s r : string) :
  serviceMultiplier s <= 18 # 10 /\ regionMultiplier r <= 125 # 100.
Proof.
  unfold serviceMultiplier, regionMultiplier.
  destruct (String.eqb s "Same-day"), (String.eqb s "Express"),
    (String.eqb r "Yangon"), (String.eqb r "Other");
    split; vm_compute; discriminate.
Qed.

(** The price as a function of the raw tariff is monotone. *)
Lemma price_of_raw_mono (i j : PriceInput) :
  raw i <= raw j -> estimatePriceMMK i <= estimatePriceMMK j.
Proof.
  intros H. unfold estimatePriceMMK.
  apply Qmult_le_compat_r; [|discriminate].
  unfold Math_round. rewrite <- Zle_Qle. apply Qfloor_resp_le.
  apply Qplus_le_compat; [|apply Qle_refl].
  apply Qmult_le_compat_r; [exact H|discriminate].
Qed.

Lemma price_of_raw_eq (i j : PriceInput) :
  raw i == raw j -> estimatePriceMMK i == estimatePriceMMK j.
Proof.
  intros H. apply Qle_antisym; apply price_of_raw_mono; rewrite H; apply Qle_refl.
Qed.

Lemma product_le (a b c a' b' c' : Q) :
  0 <= a -> 0 <= b -> 0 <= c ->
  a <= a' -> b <= b' -> c <= c' ->
  a * b * c <= a' * b' * c'.
Proof.
  intros Ha Hb Hc Haa Hbb Hcc.
  assert (Hab : a * b <= a' * b').
  { apply Qle_trans with (a * b').
    - rewrite (Qmult_comm a b), (Qmult_comm a b').
      apply Qmult_le_compat_r; assumption.
    - apply Qmult_le_compat_r; [assumption|]. apply Qle_trans with b; assumption. }
  apply Qle_trans with (a * b * c').
  - rewrite (Qmult_comm (a * b) c), (Qmult_comm (a * b) c').
    apply Qmult_le_compat_r; [assumption|]. apply Qmult_le_0_compat; assumption.
  - apply Qmult_le_compat_r; [assumption|]. apply Qle_trans with c; assumption.
Qed.



Lemma estimate_at_least_base_fee_aux (s r : string) (w : Q) :
  0 <= w -> 2500 <= estimatePriceMMK (mkPriceInput s r w).
Proof.
  intros Hw.
  destruct (multipliers_at_least_one s r) as [Hs Hr].
  assert (Hraw : 2500 <= raw (mkPriceInput s r w)).
  { unfold raw, base, perKg. cbn [serviceType destinationRegion chargeableWeightKg].
    setoid_replace 2500 with (2500 * 1 * 1) at 1 by ring.
    apply product_le; lra. }
  unfold estimatePriceMMK.
  setoid_replace 2500 with (Math_round 25 * 100) at 1 by (vm_compute; reflexivity).
  apply Qmult_le_compat_r; [|discriminate].
  unfold Math_round. rewrite <- Zle_Qle. apply Qfloor_resp_le.
  apply Qplus_le_compat; [|apply Qle_refl].
  apply Qle_shift_div_l; [reflexivity|]. lra.
Qed.



Lemma raw_nonneg_factor (w : Q) : 0 <= w -> 0 <= base + perKg * w.
Proof. unfold base, perKg. intros Hw. lra. Qed.

Lemma raw_le (s r s' r' : string) (w : Q) :
  0 <= w ->
  serviceMultiplier s <= serviceMultiplier s' ->
  regionMultiplier r <= regionMultiplier r' ->
  raw (mkPriceInput s r w) <= raw (mkPriceInput s' r' w).
Proof.
  intros Hw Hs Hr. unfold raw.
  cbn [serviceType destinationRegion chargeableWeightKg].
  destruct (multipliers_at_least_one s r) as [Hs1 Hr1].
  pose proof (raw_nonneg_factor w Hw) as Hf.
  apply product_le; lra.
Qed.



Lemma or_zero_same (x : Q) : or_zero x == x.
Proof.
  unfold or_zero. destruct (Qeq_bool x 0) eqn:E; [|reflexivity].
  apply Qeq_bool_eq in E. symmetry. exact E.
Qed.

Lemma volKg_nonneg (watched : Watched) : 0 <= volKg watched.
Proof. unfold volKg, volumetricWeightKg, Math_max. apply Q.le_max_l. Qed.

Lemma estimate_on_weight (watched : Watched) (w : Q) :
  chargeableKg watched == w ->
  estimate watched
  == estimatePrice (w_serviceType watched) (w_destinationRegion watched) w.
Proof.
  intros H. unfold estimate, estimatePrice. apply price_of_raw_eq.
  unfold raw. cbn [serviceType destinationRegion chargeableWeightKg].
  rewrite H. reflexivity.
Qed.



Lemma positive_max_spec (bound x : Q) :
  positive_max bound x = true -> 0 < x /\ x <= bound.
Proof.
  unfold positive_max. intros H. apply andb_true_iff in H as [Hpos Hmax].
  split.
  - apply Qnot_le_lt. intros Hle. apply Qle_bool_iff in Hle.
    rewrite Hle in Hpos. discriminate Hpos.
  - apply Qle_bool_iff. exact Hmax.
Qed.



Lemma Math_round_integer (n : Z) : Math_round (inject_Z n) == inject_Z n.
Proof.
  unfold Math_round.
  pose proof (Qfloor_le (inject_Z n + (1 # 2))) as Hlo.
  pose proof (Qlt_floor (inject_Z n + (1 # 2))) as Hhi.
  rewrite inject_Z_plus in Hhi. change (inject_Z 1) with 1 in Hhi.
  set (k := Qfloor (inject_Z n + (1 # 2))) in *.
  assert (Hkn : (k < n + 1)%Z).
  { rewrite Zlt_Qlt, inject_Z_plus. change (inject_Z 1) with 1. lra. }
  assert (Hnk : (n < k + 1)%Z).
  { rewrite Zlt_Qlt, inject_Z_plus. change (inject_Z 1) with 1. lra. }
  assert (k = n) by lia. subst k. rewrite H. reflexivity.
Qed.

Lemma Math_round_compat (x y : Q) : x == y -> Math_round x = Math_round y.
Proof.
  intros H. unfold Math_round. f_equal. apply Qfloor_comp. rewrite H. reflexivity.
Qed.


End QuoteFormFacts.

(** ** Theorems: the international rate calculator *)

Module CalculatorFacts.

Import JS Pricing Calculator.

Local Open Scope Q_scope.
Local Open Scope string_scope.

Lemma find_none_iff (rates : list Rate) (c : string) :
  find (fun r => String.eqb (country_name r) c) rates = None
  <-> (forall r, In r rates -> country_name r <> c).
Proof.
  induction rates as [|r rates IH]; cbn.
  - split; [intros _ r []|reflexivity].
  - destruct (String.eqb_spec (country_name r) c) as [E|N].
    + split; [discriminate|]. intros H. exfalso. apply (H r); auto.
    + rewrite IH. split.
      * intros H r' [<-|Hin]; [exact N|apply H; exact Hin].
      * intros H r' Hin. apply H. right. exact Hin.
Qed.

Lemma find_first (pre post : list Rate) (r : Rate) (c : string) :
  (forall r', In r' pre -> country_name r' <> c) ->
  country_name r = c ->
  find (fun r' => String.eqb (country_name r') c) (pre ++ r :: post)%list = Some r.
Proof.
  intros Hpre Hr. induction pre as [|p pre IH]; cbn.
  - rewrite Hr, String.eqb_refl. reflexivity.
  - destruct (String.eqb_spec (country_name p) c) as [E|N].
    + exfalso. apply (Hpre p); [left; reflexivity|exact E].
    + apply IH. intros r' Hin. apply Hpre. right. exact Hin.
Qed.

(** X7. Calculating an international rate for a country that has no row
    in the rate table leaves the quote and its breakdown exactly as they
    were (a quote computed earlier stays in place); only [loading] is
    reset. *)
Theorem calculateIntl_unknown_country_keeps_quote
        (toFixed2 : Q -> string) (st : CalcState) :
  (forall r, In r (intlRates st) -> country_name r <> selectedCountry st) ->
  quote (calculateIntl toFixed2 st) = quote st
  /\ breakdown (calculateIntl toFixed2 st) = breakdown st
  /\ loading (calculateIntl toFixed2 st) = false.
Proof.
  intros H. apply find_none_iff in H.
  unfold calculateIntl. rewrite H. cbn. auto.
Qed.

Lemma calculateIntl_unknown_country_keeps_quote_witness :
  let st := mkCalc false [mkRate "Thailand" (Finite 9000)] (Finite 2)
                   (mkDims 10 10 10) "Japan" (Some (Finite 18000)) "earlier" in
  quote (calculateIntl (fun _ => "") st) = Some (Finite 18000)
  /\ breakdown (calculateIntl (fun _ => "") st) = "earlier"
  /\ loading (calculateIntl (fun _ => "") st) = false.
Proof.
  apply (calculateIntl_unknown_country_keeps_quote (fun _ => "")
           (mkCalc false [mkRate "Thailand" (Finite 9000)] (Finite 2)
                   (mkDims 10 10 10) "Japan" (Some (Finite 18000)) "earlier")).
  cbn. intros r [<-|[]]. cbn. discriminate.
Defined.





End CalculatorFacts.

(** ** Theorems: REST client and configuration *)

Module RestClientFacts.

Import RestApi RestClient.

Local Open Scope nat_scope.
Local Open Scope string_scope.

Lemma truthy_some (s : string) : truthy (Some s) = true <-> s <> "".
Proof.
  destruct s; cbn; split; intros H; try reflexivity; try discriminate.
  exfalso. apply H. reflexivity.
Qed.

Lemma or_else_truthy (a b : option string) :
  truthy b = true -> truthy (or_else a b) = true.
Proof. unfold or_else. destruct (truthy a) eqn:E; auto. Qed.

Lemma toApiErrorMessage_nonempty (err : Thrown) : toApiErrorMessage err <> "".
Proof.
  destruct err as [dm de m|m|]; cbn; try discriminate.
  assert (H : truthy (or_else dm (or_else de (or_else m (Some "Request failed"))))
              = true).
  { repeat apply or_else_truthy. reflexivity. }
  destruct (or_else dm (or_else de (or_else m (Some "Request failed"))))
    as [s|]; [|discriminate].
  apply truthy_some. exact H.
Qed.

(** X10. The message extracted from a failed request is never empty; for
    an axios error it is the server's [message] when that is a non-empty
    string, else the server's [error], else the error's own message, and an
    empty string at any of these levels is skipped. *)
Theorem toApiErrorMessage_priority (err : Thrown) :
  toApiErrorMessage err <> ""
  /\ (forall s de m, s <> "" ->
        toApiErrorMessage (AxiosError (Some s) de m) = s)
  /\ (forall dm s m, truthy dm = false -> s <> "" ->
        toApiErrorMessage (AxiosError dm (Some s) m) = s)
  /\ (forall dm de s, truthy dm = false -> truthy de = false -> s <> "" ->
        toApiErrorMessage (AxiosError dm de (Some s)) = s)
  /\ (forall dm de m, truthy dm = false -> truthy de = false ->
        truthy m = false ->
        toApiErrorMessage (AxiosError dm de m) = "Request failed").
Proof.
  split; [apply toApiErrorMessage_nonempty|].
  repeat split.
  - intros s de m Hs. apply truthy_some in Hs. cbn. unfold or_else at 1.
    rewrite Hs. reflexivity.
  - intros dm s m Hdm Hs. apply truthy_some in Hs. cbn. unfold or_else at 1.
    rewrite Hdm. unfold or_else at 1. rewrite Hs. reflexivity.
  - intros dm de s Hdm Hde Hs. apply truthy_some in Hs. cbn.
    unfold or_else at 1. rewrite Hdm. unfold or_else at 1. rewrite Hde.
    unfold or_else at 1. rewrite Hs. reflexivity.
  - intros dm de m Hdm Hde Hm. cbn.
    unfold or_else at 1. rewrite Hdm. unfold or_else at 1. rewrite Hde.
    unfold or_else at 1. rewrite Hm. reflexivity.
Qed.

Lemma toApiErrorMessage_priority_witness :
  toApiErrorMessage (AxiosError (Some "") (Some "Forbidden") (Some "Request failed with status code 403"))
  = "Forbidden"
  /\ toApiErrorMessage (AxiosError None (Some "") None) = "Request failed".
Proof.
  split.
  - apply (proj1 (proj2 (proj2 (toApiErrorMessage_priority OtherValue)))).
    + reflexivity.
    + discriminate.
  - apply (proj2 (proj2 (proj2 (proj2 (toApiErrorMessage_priority OtherValue)))));
      reflexivity.
Defined.

Ltac auth_call :=
  unfold login, register, refreshToken, try_catch, await, api_post, resolve,
    throw, setAuthToken.

Lemma token_rejected (server : Server) (d : ApiDefaults) (err : Thrown)
                     (path : string) :
  server path d = Rejected err ->
  (path = "/auth/login" ->
   login server d = (Rejected (PlainError (toApiErrorMessage err)), d))
  /\ (path = "/auth/register" ->
      register server d = (Rejected (PlainError (toApiErrorMessage err)), d))
  /\ (path = "/auth/refresh" ->
      refreshToken server d
      = (Rejected (PlainError (toApiErrorMessage err)), d)).
Proof.
  intros H. repeat split; intros ->; auth_call; rewrite H; reflexivity.
Qed.

Lemma token_fulfilled (server : Server) (d : ApiDefaults) (res : Payload)
                      (path : string) :
  server path d = Fulfilled res ->
  let stored := mkDefaults (if truthy (Some (accessToken res))
                            then Some ("Bearer " ++ accessToken res)
                            else None) in
  (path = "/auth/login" -> login server d = (Fulfilled res, stored))
  /\ (path = "/auth/register" -> register server d = (Fulfilled res, stored))
  /\ (path = "/auth/refresh" -> refreshToken server d = (Fulfilled res, stored)).
Proof.
  intros H stored. subst stored.
  repeat split; intros ->; auth_call; rewrite H;
    destruct (truthy (Some (accessToken res))); reflexivity.
Qed.

(** X11. When the server rejects a login, a registration or a token
    refresh, the stored Authorization header is left exactly as it was and
    the caller gets a plain error whose message is the non-empty text
    extracted from the failure. *)
Theorem auth_failure_keeps_token (server : Server) (d : ApiDefaults)
                                 (err : Thrown) :
  (server "/auth/login" d = Rejected err ->
   login server d = (Rejected (PlainError (toApiErrorMessage err)), d))
  /\ (server "/auth/register" d = Rejected err ->
      register server d = (Rejected (PlainError (toApiErrorMessage err)), d))
  /\ (server "/auth/refresh" d = Rejected err ->
      refreshToken server d
      = (Rejected (PlainError (toApiErrorMessage err)), d))
  /\ toApiErrorMessage err <> "".
Proof.
  repeat split; try apply toApiErrorMessage_nonempty; intros H.
  - exact (proj1 (token_rejected server d err _ H) eq_refl).
  - exact (proj1 (proj2 (token_rejected server d err _ H)) eq_refl).
  - exact (proj2 (proj2 (token_rejected server d err _ H)) eq_refl).
Qed.

Lemma auth_failure_keeps_token_witness :
  let server : Server :=
    fun _ _ => Rejected (AxiosError (Some "Invalid credentials") None None) in
  login server (mkDefaults (Some "Bearer old"))
  = (Rejected (PlainError "Invalid credentials"), mkDefaults (Some "Bearer old")).
Proof.
  apply (proj1 (auth_failure_keeps_token
                  (fun _ _ => Rejected (AxiosError (Some "Invalid credentials") None None))
                  (mkDefaults (Some "Bearer old"))
                  (AxiosError (Some "Invalid credentials") None None))).
  reflexivity.
Defined.

(** X12. When the server accepts a login, a registration or a refresh,
    the response is handed to the caller and the header becomes
    ["Bearer " ++ token]; if the token in the response is the empty string
    the call still succeeds but the header is removed. *)
Theorem auth_success_stores_token (server : Server) (d : ApiDefaults)
                                  (res : Payload) :
  (accessToken res <> "" ->
   (server "/auth/login" d = Fulfilled res ->
    login server d
    = (Fulfilled res, mkDefaults (Some ("Bearer " ++ accessToken res))))
   /\ (server "/auth/register" d = Fulfilled res ->
       register server d
       = (Fulfilled res, mkDefaults (Some ("Bearer " ++ accessToken res))))
   /\ (server "/auth/refresh" d = Fulfilled res ->
       refreshToken server d
       = (Fulfilled res, mkDefaults (Some ("Bearer " ++ accessToken res)))))
  /\ (accessToken res = "" ->
      (server "/auth/login" d = Fulfilled res ->
       login server d = (Fulfilled res, mkDefaults None))
      /\ (server "/auth/register" d = Fulfilled res ->
          register server d = (Fulfilled res, mkDefaults None))
      /\ (server "/auth/refresh" d = Fulfilled res ->
          refreshToken server d = (Fulfilled res, mkDefaults None))).
Proof.
  split.
  - intros Hne. apply truthy_some in Hne.
    repeat split; intros H;
      pose proof (token_fulfilled server d res _ H) as E; cbv zeta in E;
      rewrite Hne in E; apply E; reflexivity.
  - intros He.
    repeat split; intros H;
      pose proof (token_fulfilled server d res _ H) as E; cbv zeta in E;
      rewrite He in E; cbn in E; apply E; reflexivity.
Qed.

Lemma auth_success_stores_token_witness :
  login (fun _ _ => Fulfilled (mkPayload "abc")) (mkDefaults None)
  = (Fulfilled (mkPayload "abc"), mkDefaults (Some "Bearer abc"))
  /\ refreshToken (fun _ _ => Fulfilled (mkPayload "")) (mkDefaults (Some "Bearer old"))
     = (Fulfilled (mkPayload ""), mkDefaults None).
Proof.
  split.
  - apply (proj1 (proj1 (auth_success_stores_token
                           (fun _ _ => Fulfilled (mkPayload "abc"))
                           (mkDefaults None) (mkPayload "abc"))
                        ltac:(discriminate))).
    reflexivity.
  - apply (proj2 (proj2 (proj2 (auth_success_stores_token
                           (fun _ _ => Fulfilled (mkPayload ""))
                           (mkDefaults (Some "Bearer old")) (mkPayload ""))
                        eq_refl))).
    reflexivity.
Defined.

Section TrackingFacts.

Variables TrackingEvent NewTrackingEvent DriverLocation NewDriverLocation : Type.
Variable orderId_of : NewDriverLocation -> string.
Variable backend :
  Backend TrackingEvent NewTrackingEvent DriverLocation NewDriverLocation.

Lemma rethrow_seen {A B : Type} (answer : ApiDefaults -> Settled A)
                   (f : A -> B) (d : ApiDefaults) :
  rethrow (await (fun d' => (answer d', d')) (fun res => resolve (f res))) d
  = (match answer d with
     | Fulfilled a => Fulfilled (f a)
     | Rejected err => Rejected (PlainError (toApiErrorMessage err))
     end, d).
Proof.
  unfold rethrow, try_catch, await, resolve, throw.
  destruct (answer d); reflexivity.
Qed.

(** X13. The four calls of the tracking API never change the client
    defaults (so never the Authorization header); each hands back exactly
    what the backend answered for the path built from the order id, and a
    failure always reaches the caller as a plain error with a non-empty
    message. *)
Theorem tracking_calls_pass_through
        (d : ApiDefaults) (orderId : string)
        (event : NewTrackingEvent) (payload : NewDriverLocation) :
  getTrackingTimeline backend orderId d
  = (seen_by_caller (timeline backend ("/orders/" ++ orderId ++ "/tracking") d), d)
  /\ addTrackingEvent backend orderId event d
     = (seen_by_caller
          (added backend ("/orders/" ++ orderId ++ "/tracking") event d), d)
  /\ updateDriverLocation orderId_of backend payload d
     = (seen_by_caller
          (located backend
             ("/orders/" ++ orderId_of payload ++ "/driver-location") payload d),
        d)
  /\ getLatestDriverLocation backend orderId d
     = (seen_by_caller
          (latest backend ("/orders/" ++ orderId ++ "/driver-location/latest") d),
        d)
  /\ (forall (A : Type) (answer : Settled A) (err : Thrown),
        seen_by_caller answer = Rejected err ->
        exists message, err = PlainError message /\ message <> "").
Proof.
  unfold getTrackingTimeline, addTrackingEvent, updateDriverLocation,
    getLatestDriverLocation.
  repeat split.
  - rewrite (rethrow_seen (timeline backend _) (fun res => res)).
    unfold seen_by_caller. destruct (timeline backend _ d); reflexivity.
  - rewrite (rethrow_seen (added backend _ event) (fun res => res)).
    unfold seen_by_caller. destruct (added backend _ event d); reflexivity.
  - rewrite (rethrow_seen (located backend _ payload) (fun _ => tt)).
    unfold seen_by_caller.
    destruct (located backend _ payload d) as [[]|]; reflexivity.
  - rewrite (rethrow_seen (latest backend _) (fun res => res)).
    unfold seen_by_caller. destruct (latest backend _ d); reflexivity.
  - intros A [a|e] err H; cbn in H; [discriminate|].
    injection H as <-. eexists. split; [reflexivity|].
    apply toApiErrorMessage_nonempty.
Qed.

End TrackingFacts.

Lemma tracking_calls_pass_through_witness :
  let backend : Backend string string string string :=
    mkBackend (fun _ _ => Rejected (AxiosError None (Some "order not found") None))
              (fun _ e _ => Fulfilled e)
              (fun _ _ _ => Fulfilled tt)
              (fun _ _ => Fulfilled None) in
  getTrackingTimeline backend "o-17" (mkDefaults (Some "Bearer t"))
  = (Rejected (PlainError "order not found"), mkDefaults (Some "Bearer t"))
  /\ exists message,
       PlainError "order not found" = PlainError message /\ message <> "".
Proof.
  pose proof (tracking_calls_pass_through string string string string
                (fun p => p)
                (mkBackend
                   (fun _ _ => Rejected (AxiosError None (Some "order not found") None))
                   (fun _ e _ => Fulfilled e)
                   (fun _ _ _ => Fulfilled tt)
                   (fun _ _ => Fulfilled None))
                (mkDefaults (Some "Bearer t")) "o-17" "picked_up" "o-17")
    as [Htimeline [_ [_ [_ Hrej]]]].
  split; [exact Htimeline|].
  apply (Hrej (list string)
              (Rejected (AxiosError None (Some "order not found") None))).
  reflexivity.
Defined.

(** *** [getBaseUrl] and [requireEnv] *)

Lemma trim_trailing_slashes_split (s : string) :
  exists n, s = trim_trailing_slashes s ++ slashes n.
Proof.
  induction s as [|c rest [n IH]].
  - exists 0. reflexivity.
  - cbn [trim_trailing_slashes].
    destruct (trim_trailing_slashes rest) as [|c' rest'] eqn:E.
    + cbn in IH. destruct (is_slash c) eqn:Ec.
      * exists (S n). unfold is_slash in Ec. apply Ascii.eqb_eq in Ec.
        subst c. cbn. rewrite <- IH. reflexivity.
      * exists n. cbn. rewrite <- IH. reflexivity.
    + exists n. cbn. cbn in IH. rewrite <- IH. reflexivity.
Qed.

Lemma trim_trailing_slashes_last (s : string) :
  last_char (trim_trailing_slashes s) <> Some "/"%char.
Proof.
  induction s as [|c rest IH]; [discriminate|].
  cbn [trim_trailing_slashes].
  destruct (trim_trailing_slashes rest) as [|c' rest'] eqn:E.
  - destruct (is_slash c) eqn:Ec; [discriminate|].
    cbn. intros H. injection H as ->. discriminate Ec.
  - exact IH.
Qed.

Lemma trim_trailing_slashes_fixed (s : string) :
  last_char s <> Some "/"%char -> trim_trailing_slashes s = s.
Proof.
  induction s as [|c rest IH]; [reflexivity|].
  intros H. cbn [trim_trailing_slashes].
  destruct rest as [|c' rest'].
  - cbn. destruct (is_slash c) eqn:Ec; [|reflexivity].
    exfalso. apply H. unfold is_slash in Ec. apply Ascii.eqb_eq in Ec.
    subst c. reflexivity.
  - rewrite IH; [reflexivity|exact H].
Qed.

(** X14. The base URL never ends in a slash: it is the first non-empty
    one of the Vite variable, the process variable and
    ["http://localhost:3000/api"], with every trailing slash (and nothing
    else) removed; trimming again changes nothing. *)
Theorem getBaseUrl_no_trailing_slash (fromVite fromProcess : option string) :
  last_char (getBaseUrl fromVite fromProcess) <> Some "/"%char
  /\ trim_trailing_slashes (getBaseUrl fromVite fromProcess)
     = getBaseUrl fromVite fromProcess
  /\ (forall v, fromVite = Some v -> v <> "" ->
        exists n, v = getBaseUrl fromVite fromProcess ++ slashes n)
  /\ (forall p, truthy fromVite = false -> fromProcess = Some p -> p <> "" ->
        exists n, p = getBaseUrl fromVite fromProcess ++ slashes n)
  /\ (truthy fromVite = false -> truthy fromProcess = false ->
        getBaseUrl fromVite fromProcess = "http://localhost:3000/api").
Proof.
  assert (Hlast : last_char (getBaseUrl fromVite fromProcess) <> Some "/"%char).
  { unfold getBaseUrl.
    destruct (or_else fromVite (or_else fromProcess (Some default_base)));
      apply trim_trailing_slashes_last. }
  split; [exact Hlast|].
  split; [apply trim_trailing_slashes_fixed; exact Hlast|].
  repeat split.
  - intros v -> Hv. apply truthy_some in Hv. unfold getBaseUrl, or_else at 1.
    rewrite Hv. apply trim_trailing_slashes_split.
  - intros p Hv -> Hp. apply truthy_some in Hp. unfold getBaseUrl, or_else at 1.
    rewrite Hv. unfold or_else at 1. rewrite Hp.
    apply trim_trailing_slashes_split.
  - intros Hv Hp. unfold getBaseUrl, or_else at 1. rewrite Hv.
    unfold or_else at 1. rewrite Hp. reflexivity.
Qed.

Lemma getBaseUrl_no_trailing_slash_witness :
  (exists n, "https://api.britium.example/v1//"
             = getBaseUrl (Some "https://api.britium.example/v1//") None
               ++ slashes n)
  /\ getBaseUrl (Some "") None = "http://localhost:3000/api".
Proof.
  split.
  - apply (proj1 (proj2 (proj2 (getBaseUrl_no_trailing_slash
               (Some "https://api.britium.example/v1//") None)))
               "https://api.britium.example/v1//").
    + reflexivity.
    + discriminate.
  - apply (proj2 (proj2 (proj2 (proj2 (getBaseUrl_no_trailing_slash
               (Some "") None))))); reflexivity.
Defined.

(** X15. [requireEnv] yields a value only when the variable is set to a
    non-empty string, and then that string; a variable that is unset or
    set to the empty string raises the error naming the variable. *)
Theorem requireEnv_nonempty (env : Env) (name : string) :
  (forall v, requireEnv env name = inl v -> env name = Some v /\ v <> "")
  /\ (env name = None \/ env name = Some "" ->
      requireEnv env name
      = inr (PlainError ("Missing required env var: " ++ name)))
  /\ (forall v, env name = Some v -> v <> "" -> requireEnv env name = inl v).
Proof.
  unfold requireEnv. split; [|split].
  - intros v H. destruct (env name) as [s|]; [|discriminate].
    destruct (truthy (Some s)) eqn:T; [|discriminate].
    injection H as <-. split; [reflexivity|]. apply truthy_some. exact T.
  - intros [->| ->]; reflexivity.
  - intros v -> Hv. apply truthy_some in Hv. rewrite Hv. reflexivity.
Qed.

Lemma requireEnv_nonempty_witness :
  let env : Env := fun n => if String.eqb n "VITE_FIREBASE_API_KEY"
                            then Some "" else None in
  requireEnv env "VITE_FIREBASE_API_KEY"
  = inr (PlainError "Missing required env var: VITE_FIREBASE_API_KEY").
Proof.
  apply (proj1 (proj2 (requireEnv_nonempty
           (fun n => if String.eqb n "VITE_FIREBASE_API_KEY"
                     then Some "" else None)
           "VITE_FIREBASE_API_KEY"))).
  right. reflexivity.
Defined.

End RestClientFacts.

(** ** Theorems: account sign-up *)

Module SignupFacts.

Import Signup.

Local Open Scope nat_scope.
Local Open Scope string_scope.

Lemma first_missing_none (files : Files) (docs : list string) :
  first_missing files docs = None
  <-> (forall d, In d docs -> get_file files d <> None).
Proof.
  induction docs as [|d docs IH]; cbn.
  - split; [intros _ d []|reflexivity].
  - destruct (get_file files d) eqn:E.
    + rewrite IH. split.
      * intros H d' [<-|Hin]; [rewrite E; discriminate|apply H; exact Hin].
      * intros H d' Hin. apply H. right. exact Hin.
    + split; [discriminate|]. intros H. exfalso. apply (H d); auto.
Qed.

Lemma first_missing_some (files : Files) (docs : list string) (d : string) :
  first_missing files docs = Some d ->
  exists pre post,
    docs = (pre ++ d :: post)%list
    /\ get_file files d = None
    /\ (forall d', In d' pre -> get_file files d' <> None).
Proof.
  induction docs as [|d0 docs IH]; cbn; [discriminate|].
  destruct (get_file files d0) eqn:E.
  - intros H. destruct (IH H) as [pre [post [-> [Hd Hpre]]]].
    exists (d0 :: pre), post. split; [reflexivity|]. split; [exact Hd|].
    intros d' [<-|Hin]; [rewrite E; discriminate|apply Hpre; exact Hin].
  - intros H. injection H as <-. exists [], docs.
    split; [reflexivity|]. split; [exact E|]. intros d' [].
Qed.

(** X16. [missingRequiredDoc] is null exactly when every document
    required for the chosen role has a file; otherwise it is the first
    required document, in the order of the table, that has none. *)
Theorem missingRequiredDoc_is_first_missing (st : SignupState) :
  (missingRequiredDoc st = None
   <-> (forall d, In d (requiredDocs st) -> get_file (files st) d <> None))
  /\ (forall d, missingRequiredDoc st = Some d ->
        exists pre post,
          requiredDocs st = (pre ++ d :: post)%list
          /\ get_file (files st) d = None
          /\ (forall d', In d' pre -> get_file (files st) d' <> None)).
Proof.
  split; [apply first_missing_none|].
  intros d. apply first_missing_some.
Qed.

Lemma missingRequiredDoc_is_first_missing_witness :
  let st := mkSignup false None (mkForm "" "" "" "" rider "")
                     [("Driving License (Front)", Some (mkFile "a.jpg" 1000))] in
  exists pre post,
    requiredDocs st = (pre ++ "Driving License (Back)" :: post)%list
    /\ get_file (files st) "Driving License (Back)" = None
    /\ (forall d', In d' pre -> get_file (files st) d' <> None).
Proof.
  apply (proj2 (missingRequiredDoc_is_first_missing
                  (mkSignup false None (mkForm "" "" "" "" rider "")
                     [("Driving License (Front)", Some (mkFile "a.jpg" 1000))]))).
  reflexivity.
Defined.

Lemma get_file_in (files : Files) (d : string) (f : File) :
  get_file files d = Some f -> exists k, In (k, Some f) files.
Proof.
  induction files as [|[k v] files IH]; cbn; [discriminate|].
  destruct (String.eqb k d).
  - intros ->. exists k. left. reflexivity.
  - intros H. destruct (IH H) as [k' Hk']. exists k'. right. exact Hk'.
Qed.

Lemma form_step_small (st : SignupState) (e : FormEvent) :
  small_files (files st) -> small_files (files (form_step st e)).
Proof.
  intros Hst. destruct e as [r|docName [f|]]; cbn.
  - intros k f [].
  - unfold handleFileChange.
    destruct (N.ltb_spec (MAX_FILE_MB * 1024 * 1024) (size f)) as [Hbig|Hok];
      cbn; [exact Hst|].
    intros k f' [H|H]; [|exact (Hst k f' H)].
    injection H as _ <-. exact Hok.
  - intros k f' [H|H]; [discriminate H|exact (Hst k f' H)].
Qed.

Lemma form_run_small (es : list FormEvent) (st : SignupState) :
  small_files (files st) -> small_files (files (form_run es st)).
Proof.
  revert st. induction es as [|e es IH]; intros st Hst; [exact Hst|].
  cbn. apply IH. apply form_step_small. exact Hst.
Qed.

(** X17. Whatever roles and files the visitor picks, in whatever order, no
    file larger than 5 MB (5 * 1024 * 1024 bytes) is ever held by the form:
    an oversized pick is refused with an error and leaves the files as they
    were. *)
Theorem oversized_file_never_kept
        (es : list FormEvent) (docName : string) (f : File) :
  (get_file (files (form_run es initial)) docName = Some f ->
   (size f <= 5242880)%N)
  /\ ((5242880 < size f)%N ->
      forall st,
        files (handleFileChange docName (Some f) st) = files st
        /\ error (handleFileChange docName (Some f) st) <> None).
Proof.
  split.
  - intros H. apply get_file_in in H as [k Hk].
    apply (form_run_small es initial) in Hk; [exact Hk|].
    intros k' f' [].
  - intros Hbig st. unfold handleFileChange.
    destruct (N.ltb_spec (MAX_FILE_MB * 1024 * 1024) (size f)) as [_|Hok].
    + cbn. split; [reflexivity|discriminate].
    + exfalso. change (MAX_FILE_MB * 1024 * 1024)%N with 5242880%N in Hok. lia.
Qed.

Lemma oversized_file_never_kept_witness :
  (size (mkFile "nrc.png" 4000000) <= 5242880)%N
  /\ files (handleFileChange "Tax ID" (Some (mkFile "scan.tiff" 9000000)) initial)
     = files initial.
Proof.
  split.
  - apply (proj1 (oversized_file_never_kept
                    [PickRole customer;
                     PickFile "NRC / ID Card" (Some (mkFile "nrc.png" 4000000))]
                    "NRC / ID Card" (mkFile "nrc.png" 4000000))).
    reflexivity.
  - apply (proj2 (oversized_file_never_kept [] "Tax ID"
                    (mkFile "scan.tiff" 9000000)) ltac:(reflexivity) initial).
Defined.

Lemma table_names_nonempty (r : Role) (d : string) :
  In d (ROLE_REQUIREMENTS r) -> nonempty d = true.
Proof.
  destruct r; cbn; intros H;
    repeat (destruct H as [<-|H]; [reflexivity|]); destruct H.
Qed.

(** X18. Changing the role discards every file picked so far: right after
    the change the first document of the new role is reported missing, for
    every role, since every role requires at least one document. *)
Theorem changeRole_requires_new_uploads (r : Role) (st : SignupState) :
  files (changeRole r st) = []
  /\ missingRequiredDoc (changeRole r st) = hd_error (ROLE_REQUIREMENTS r)
  /\ missingRequiredDoc (changeRole r st) <> None.
Proof.
  split; [reflexivity|].
  unfold missingRequiredDoc, requiredDocs. cbn.
  destruct r; cbn; split; try reflexivity; discriminate.
Qed.

Section RegisterFacts.

Variable trim : string -> string.
Variable fb : Firebase.

(** X19. While a required document is missing, submitting the form calls
    nothing outside (no account is created, nothing is uploaded or
    written), shows ["Please upload: "] followed by the first missing
    document, and leaves [loading] as it was. *)
Theorem handleRegister_blocked_without_documents
        (st : SignupState) (d : string) :
  missingRequiredDoc st = Some d ->
  handleRegister trim fb st
  = (mkSignup (loading st) (Some ("Please upload: " ++ d))
              (formData st) (files st), []).
Proof.
  intros H. unfold handleRegister, blocked_on. rewrite H.
  destruct (first_missing_some _ _ _ H) as [pre [post [Hdocs _]]].
  assert (Hin : In d (requiredDocs st)).
  { rewrite Hdocs. apply in_or_app. right. left. reflexivity. }
  rewrite (table_names_nonempty _ _ Hin).
  destruct (requiredDocs st); [destruct Hin|reflexivity].
Qed.

End RegisterFacts.

Lemma handleRegister_blocked_without_documents_witness :
  handleRegister (fun s => s)
    (mkFirebase (fun _ _ => inr "uid-1") (fun _ _ => inr tt)
                (fun _ => inr "https://files/x") (fun _ _ => inr tt)
                (fun _ _ => inr tt) (fun _ => 0%N))
    initial
  = (mkSignup false (Some "Please upload: NRC / ID Card")
              (formData initial) [], []).
Proof.
  apply (handleRegister_blocked_without_documents (fun s => s)
           (mkFirebase (fun _ _ => inr "uid-1") (fun _ _ => inr tt)
                       (fun _ => inr "https://files/x") (fun _ _ => inr tt)
                       (fun _ _ => inr tt) (fun _ => 0%N))
           initial "NRC / ID Card").
  reflexivity.
Defined.

Section RegisterRuns.

Variable trim : string -> string.
Variable fb : Firebase.

Lemma uploadDocs_log (uid : string) (files : Files) (docs : list string) :
  forall (i : nat) (urls : list (string * string)) (log : list Action),
  exists extra,
    snd (uploadDocs fb uid files docs i urls log) = (log ++ extra)%list
    /\ forallb is_upload_action extra = true.
Proof.
  induction docs as [|d docs IH]; intros i urls log; cbn [uploadDocs].
  - exists []. rewrite app_nil_r. auto.
  - destruct (get_file files d) as [file|]; [|apply IH].
    destruct (uploadBytes fb _ file) as [e|[]].
    + eexists. split; [reflexivity|reflexivity].
    + destruct (getDownloadURL fb _) as [e|url].
      * cbn. rewrite <- app_assoc. eexists. split; [reflexivity|reflexivity].
      * destruct (IH (S i) (urls ++ [(d, url)])%list
                     ((log ++ [UploadBytes (storagePath uid d (Date_now fb i)) file])
                        ++ [GetDownloadURL (storagePath uid d (Date_now fb i))])%list)
          as [extra [E F]].
        rewrite E. rewrite <- !app_assoc. eexists. split; [reflexivity|].
        cbn. exact F.
Qed.

Lemma uploadDocs_keys (uid : string) (files : Files) (docs : list string) :
  (forall d, In d docs -> get_file files d <> None) ->
  forall (i : nat) (urls : list (string * string)) (log : list Action)
         (urls' : list (string * string)),
    fst (uploadDocs fb uid files docs i urls log) = inr urls' ->
    map fst urls' = (map fst urls ++ docs)%list.
Proof.
  induction docs as [|d docs IH]; intros Hall i urls log urls';
    cbn [uploadDocs].
  - cbn. intros H. injection H as <-. rewrite app_nil_r. reflexivity.
  - destruct (get_file files d) as [file|] eqn:E.
    + destruct (uploadBytes fb _ file) as [e|[]]; [discriminate|].
      destruct (getDownloadURL fb _) as [e|url]; [discriminate|].
      intros H. apply IH in H.
      * rewrite H, map_app, <- app_assoc. reflexivity.
      * intros d' Hin. apply Hall. right. exact Hin.
    + exfalso. apply (Hall d); [left; reflexivity|exact E].
Qed.

Lemma not_blocked_all_present (st : SignupState) :
  blocked_on st = None ->
  forall d, In d (requiredDocs st) -> get_file (files st) d <> None.
Proof.
  unfold blocked_on. intros H d Hin.
  destruct (requiredDocs st) as [|d0 docs] eqn:Edocs; [destruct Hin|].
  cbn in H. destruct (missingRequiredDoc st) as [m|] eqn:Em.
  - destruct (first_missing_some _ _ _ Em) as [pre [post [Hdocs _]]].
    assert (Hm : In m (requiredDocs st)).
    { rewrite Hdocs. apply in_or_app. right. left. reflexivity. }
    rewrite (table_names_nonempty _ _ Hm) in H. discriminate H.
  - apply (proj1 (first_missing_none _ _) Em). rewrite Edocs. exact Hin.
Qed.

Lemma in_upload_extra (a : Action) (extra : list Action) :
  forallb is_upload_action extra = true -> In a extra ->
  is_upload_action a = true.
Proof.
  intros H Hin. rewrite forallb_forall in H. apply H. exact Hin.
Qed.

Lemma uploadDocs_uploaded (uid : string) (files : Files) (docs : list string) :
  (forall d, In d docs -> get_file files d <> None) ->
  forall (i : nat) (urls0 urls' : list (string * string))
         (log0 log' : list Action),
    uploadDocs fb uid files docs i urls0 log0 = (inr urls', log') ->
    exists urls calls,
      urls' = (urls0 ++ urls)%list
      /\ log' = (log0 ++ calls)%list
      /\ uploaded fb uid files docs i urls calls.
Proof.
  induction docs as [|d docs IH]; intros Hall i urls0 urls' log0 log';
    cbn [uploadDocs].
  - intros H. injection H as <- <-. exists [], []. rewrite !app_nil_r.
    cbn. auto.
  - destruct (get_file files d) as [file|] eqn:E.
    + destruct (uploadBytes fb _ file) as [e|[]] eqn:Eu; [discriminate|].
      destruct (getDownloadURL fb _) as [e|url] eqn:Eg; [discriminate|].
      intros H. apply IH in H as [urls [calls [-> [-> Hup]]]].
      * exists ((d, url) :: urls),
               (UploadBytes (storagePath uid d (Date_now fb i)) file
                :: GetDownloadURL (storagePath uid d (Date_now fb i)) :: calls).
        rewrite <- !app_assoc. split; [reflexivity|]. split; [reflexivity|].
        cbn [uploaded]. exists file, url, urls, calls.
        rewrite E. auto 10.
      * intros d' Hin. apply Hall. right. exact Hin.
    + exfalso. apply (Hall d); [left; reflexivity|exact E].
Qed.

Lemma uploaded_calls (uid : string) (files : Files) (docs : list string) :
  forall (i : nat) (urls : list (string * string)) (calls : list Action),
    uploaded fb uid files docs i urls calls ->
    forallb is_upload_action calls = true /\ map fst urls = docs.
Proof.
  induction docs as [|d docs IH]; intros i urls calls; cbn [uploaded].
  - intros [-> ->]. auto.
  - intros [file [url [urls' [calls' [_ [_ [_ [-> [-> H]]]]]]]]].
    destruct (IH _ _ _ H) as [Hc Hk]. cbn. rewrite Hc, Hk. auto.
Qed.

Lemma handleRegister_log (st : SignupState) :
  blocked_on st = None ->
  snd (handleRegister trim fb st) = snd (register_steps trim fb st).
Proof.
  intros Eb. unfold handleRegister. rewrite Eb.
  destruct (register_steps trim fb st). reflexivity.
Qed.

(** The calls of the [try] block: either no profile is written, or the
    calls are the account creation, the uploads, the write, and then at
    most the profile update and the navigation. *)
Lemma register_steps_log (st : SignupState) :
  (forall d, In d (requiredDocs st) -> get_file (files st) d <> None) ->
  (forall uid doc, ~ In (SetDoc uid doc) (snd (register_steps trim fb st)))
  \/ exists uid0 urls calls later,
       createUserWithEmailAndPassword fb (trim (email (formData st)))
                                      (password (formData st)) = inr uid0
       /\ uploaded fb uid0 (files st) (requiredDocs st) 0 urls calls
       /\ snd (register_steps trim fb st)
          = (CreateUser (trim (email (formData st))) (password (formData st))
             :: calls
                ++ SetDoc uid0
                     (mkDoc uid0 (trim (email (formData st)))
                        (trim (fullName (formData st)))
                        (trim (phone (formData st)))
                        (role (formData st))
                        (branch_or_null trim (branchId (formData st)))
                        "pending" urls 1 false)
                :: later)%list
       /\ (forall a, In a later ->
             a = UpdateProfile uid0 (trim (fullName (formData st)))
             \/ a = Navigate "/pending-approval").
Proof.
  intros Hall. unfold register_steps.
  destruct (createUserWithEmailAndPassword fb _ _) as [e|uid0] eqn:Ec.
  { left. cbn. intros uid doc [H|[]]. discriminate H. }
  destruct (uploadDocs fb uid0 (files st) (requiredDocs st) 0 []
              [CreateUser (trim (email (formData st))) (password (formData st))])
    as [[e|urls] log1] eqn:Eup.
  { left. cbn [snd]. intros uid doc Hin.
    destruct (uploadDocs_log uid0 (files st) (requiredDocs st) 0 []
                [CreateUser (trim (email (formData st)))
                            (password (formData st))])
      as [extra [Elog Hextra]].
    rewrite Eup in Elog. cbn in Elog. subst log1.
    destruct Hin as [H|H]; [discriminate H|].
    apply (in_upload_extra _ _ Hextra) in H. discriminate H. }
  destruct (uploadDocs_uploaded uid0 (files st) (requiredDocs st) Hall
              0 [] urls _ log1 Eup)
    as [urls1 [calls [Eurls [Elog1 Hup]]]].
  cbn in Eurls. subst urls1. cbn in Elog1. subst log1.
  right. exists uid0, urls, calls.
  destruct (setDoc fb uid0 _) as [e|[]].
  { exists []. repeat split; auto. intros a []. }
  destruct (updateProfile fb uid0 _) as [e|[]].
  { exists [UpdateProfile uid0 (trim (fullName (formData st)))].
    repeat split; auto.
    - cbn [snd]. rewrite <- app_assoc. reflexivity.
    - intros a [<-|[]]. auto. }
  exists [UpdateProfile uid0 (trim (fullName (formData st)));
          Navigate "/pending-approval"].
  repeat split; auto.
  - cbn [snd]. rewrite <- !app_assoc. reflexivity.
  - intros a [<-|[<-|[]]]; auto.
Qed.


(** X21. Once the documents are complete, submitting always ends with
    [loading] false and always begins by creating the account with the
    trimmed e-mail; the visitor is sent to [/pending-approval] exactly when
    no error is shown; and when the account creation itself throws, nothing
    else is called and the formatted error is shown. *)
Theorem handleRegister_outcome (st : SignupState) :
  blocked_on st = None ->
  loading (fst (handleRegister trim fb st)) = false
  /\ (exists rest,
        snd (handleRegister trim fb st)
        = CreateUser (trim (email (formData st))) (password (formData st))
          :: rest)
  /\ (error (fst (handleRegister trim fb st)) = None
      <-> In (Navigate "/pending-approval") (snd (handleRegister trim fb st)))
  /\ (forall e,
        createUserWithEmailAndPassword fb (trim (email (formData st)))
                                       (password (formData st)) = inl e ->
        snd (handleRegister trim fb st)
        = [CreateUser (trim (email (formData st))) (password (formData st))]
        /\ error (fst (handleRegister trim fb st))
           = Some (formatFirebaseError e)).
Proof.
  intros Eb. unfold handleRegister. rewrite Eb. unfold register_steps.
  destruct (createUserWithEmailAndPassword fb _ _) as [e|uid0] eqn:Ec.
  { cbn. split; [reflexivity|]. split; [eexists; reflexivity|]. split.
    - split; [discriminate|]. intros [H|[]]. discriminate H.
    - intros e' H. injection H as <-. auto. }
  destruct (uploadDocs_log uid0 (files st) (requiredDocs st) 0 []
              [CreateUser (trim (email (formData st))) (password (formData st))])
    as [extra [Elog Hextra]].
  assert (Hno : ~ In (Navigate "/pending-approval") extra).
  { intros H. apply (in_upload_extra _ _ Hextra) in H. discriminate H. }
  destruct (uploadDocs fb uid0 (files st) (requiredDocs st) 0 [] _)
    as [[e|urls] log1]; cbn in Elog; subst log1.
  { cbn. split; [reflexivity|]. split; [eexists; reflexivity|]. split.
    - split; [discriminate|]. intros [H|H]; [discriminate H|contradiction].
    - intros e' H. discriminate H. }
  destruct (setDoc fb uid0 _) as [e|[]].
  { cbn. split; [reflexivity|]. split; [eexists; reflexivity|]. split.
    - split; [discriminate|]. intros [H|H]; [discriminate H|].
      apply in_app_or in H as [H|[H|[]]]; [contradiction|discriminate H].
    - intros e' H. discriminate H. }
  destruct (updateProfile fb uid0 _) as [e|[]].
  { cbn. split; [reflexivity|]. split; [eexists; reflexivity|]. split.
    - split; [discriminate|]. intros [H|H]; [discriminate H|].
      apply in_app_or in H as [H|[H|[]]]; [|discriminate H].
      apply in_app_or in H as [H|[H|[]]]; [contradiction|discriminate H].
    - intros e' H. discriminate H. }
  cbn. split; [reflexivity|]. split; [eexists; reflexivity|]. split.
  - split; [|reflexivity]. intros _. right.
    apply in_or_app. right. left. reflexivity.
  - intros e' H. discriminate H.
Qed.

End RegisterRuns.


Lemma handleRegister_outcome_witness :
  let fb := mkFirebase (fun _ _ => inl (mkFbError (Some "auth/weak-password") None))
                       (fun _ _ => inr tt)
                       (fun _ => inr "https://files/nrc") (fun _ _ => inr tt)
                       (fun _ _ => inr tt) (fun _ => 0%N) in
  let st := mkSignup false None
                     (mkForm "kyaw@example.com" "123" "Kyaw Kyaw"
                             "+95912345" customer "")
                     [("NRC / ID Card", Some (mkFile "nrc.png" 4000000))] in
  snd (handleRegister (fun s => s) fb st) = [CreateUser "kyaw@example.com" "123"]
  /\ error (fst (handleRegister (fun s => s) fb st))
     = Some "Password is too weak. Use at least 8 characters.".
Proof.
  apply (proj2 (proj2 (proj2 (handleRegister_outcome (fun s => s)
           (mkFirebase (fun _ _ => inl (mkFbError (Some "auth/weak-password") None))
                       (fun _ _ => inr tt)
                       (fun _ => inr "https://files/nrc") (fun _ _ => inr tt)
                       (fun _ _ => inr tt) (fun _ => 0%N))
           (mkSignup false None
                     (mkForm "kyaw@example.com" "123" "Kyaw Kyaw"
                             "+95912345" customer "")
                     [("NRC / ID Card", Some (mkFile "nrc.png" 4000000))])
           eq_refl)))
           (mkFbError (Some "auth/weak-password") None)).
  reflexivity.
Defined.

Lemma all_chars_weaken (p q : ascii -> bool) (s : string) :
  (forall c, p c = true -> q c = true) ->
  all_chars p s = true -> all_chars q s = true.
Proof.
  intros Hpq. induction s as [|c s IH]; cbn; [reflexivity|].
  intros H. apply andb_true_iff in H as [Hc Hs].
  rewrite (Hpq c Hc), (IH Hs). reflexivity.
Qed.

Lemma replace_runs_chars (class p : ascii -> bool) (s : string) :
  all_chars p s = true ->
  forall in_run,
    all_chars (fun c => Ascii.eqb c "_"%char || (p c && negb (class c)))
              (replace_runs class in_run s) = true.
Proof.
  induction s as [|c s IH]; cbn; [reflexivity|].
  intros H in_run. apply andb_true_iff in H as [Hc Hs].
  destruct (class c) eqn:Ecl.
  - destruct in_run; cbn; apply IH; exact Hs.
  - cbn. rewrite Hc, Ecl, (IH Hs false). cbn.
    rewrite orb_true_r. reflexivity.
Qed.

Lemma all_chars_true (s : string) : all_chars (fun _ => true) s = true.
Proof. induction s as [|c s IH]; cbn; auto. Qed.

Lemma replace_runs_fixed (class : ascii -> bool) (s : string) :
  all_chars (fun c => negb (class c)) s = true ->
  forall in_run, replace_runs class in_run s = s.
Proof.
  induction s as [|c s IH]; cbn; [reflexivity|].
  intros H in_run. apply andb_true_iff in H as [Hc Hs].
  apply negb_true_iff in Hc. rewrite Hc, (IH Hs false). reflexivity.
Qed.

Lemma underscore_is_word : is_word "_"%char = true.
Proof. reflexivity. Qed.

Lemma path_safe_not_unsafe (c : ascii) :
  is_path_safe c = true -> is_unsafe c = false /\ is_space c = false.
Proof.
  unfold is_path_safe, is_unsafe. intros H. split.
  - apply negb_false_iff. repeat rewrite orb_true_iff in *. tauto.
  - destruct c as [[] [] [] [] [] [] [] []]; try reflexivity; discriminate H.
Qed.

(** X22. The name under which a document is stored contains only word
    characters, hyphens, parentheses and dots, whatever the document is
    called: no slash and no white space can reach the storage path; a name
    made of such characters only is kept as it is. *)
Theorem safeName_is_path_safe (docName : string) :
  all_chars is_path_safe (safeName docName) = true
  /\ (all_chars is_path_safe docName = true -> safeName docName = docName).
Proof.
  split.
  - unfold safeName.
    pose proof (replace_runs_chars is_unsafe (fun _ => true) docName
                  (all_chars_true docName) false) as H1.
    pose proof (replace_runs_chars is_space _ _ H1 false) as H2.
    revert H2. apply all_chars_weaken. intros c Hc.
    destruct (Ascii.eqb c "_"%char) eqn:E.
    { apply Ascii.eqb_eq in E. subst c. reflexivity. }
    cbn in Hc. apply andb_true_iff in Hc as [Hc Hsp].
    unfold is_unsafe in Hc. rewrite negb_involutive in Hc.
    unfold is_path_safe. unfold is_space in Hsp.
    apply negb_true_iff in Hsp. apply orb_false_iff in Hsp as [_ Hsp].
    rewrite Hsp in Hc. rewrite orb_false_r in Hc. exact Hc.
  - intros H. unfold safeName.
    rewrite (replace_runs_fixed is_unsafe docName).
    + apply replace_runs_fixed. revert H. apply all_chars_weaken.
      intros c Hc. apply path_safe_not_unsafe in Hc as [_ ->]. reflexivity.
    + revert H. apply all_chars_weaken.
      intros c Hc. apply path_safe_not_unsafe in Hc as [-> _]. reflexivity.
Qed.

Lemma safeName_is_path_safe_witness :
  safeName "Staff-ID_(v2).pdf" = "Staff-ID_(v2).pdf".
Proof.
  apply (proj2 (safeName_is_path_safe "Staff-ID_(v2).pdf")). reflexivity.
Defined.

Example safeName_of_table_entries :
  safeName "NRC / ID Card" = "NRC___ID_Card"
  /\ safeName "Driving License (Front)" = "Driving_License_(Front)".
Proof. split; reflexivity. Qed.

End SignupFacts.

(** ** Theorems: shipment tracking *)

Module TrackingFacts.

Import Tracking.

Local Open Scope nat_scope.
Local Open Scope string_scope.

Lemma find_by_id_some (docs : list (string * ShipmentDoc)) (id : string)
                      (d : string * ShipmentDoc) :
  find (fun d' => String.eqb (fst d') id) docs = Some d ->
  fst d = id /\ In d docs.
Proof.
  intros H. apply find_some in H as [Hin Heq].
  apply String.eqb_eq in Heq. auto.
Qed.

Lemma find_by_id_none (docs : list (string * ShipmentDoc)) (id : string) :
  find (fun d' => String.eqb (fst d') id) docs = None
  <-> (forall d, In d docs -> fst d <> id).
Proof.
  split.
  - intros H d Hin Heq. apply (find_none _ _ H) in Hin.
    apply String.eqb_neq in Hin. contradiction.
  - intros H. induction docs as [|d docs IH]; [reflexivity|]. cbn.
    destruct (String.eqb_spec (fst d) id) as [E|N].
    + exfalso. apply (H d); [left; reflexivity|exact E].
    + apply IH. intros d' Hin. apply H. right. exact Hin.
Qed.

Lemma first_of_filter (docs : list (string * ShipmentDoc)) (id : string) :
  match firstn 1 (filter (has_trackingId id) docs) with
  | [] => forall d, In d docs -> trackingId (snd d) <> Some id
  | d :: _ => In d docs /\ trackingId (snd d) = Some id
  end.
Proof.
  destruct (filter (has_trackingId id) docs) as [|d rest] eqn:E; cbn.
  - intros d Hin Ht.
    assert (Hf : In d (filter (has_trackingId id) docs)).
    { apply filter_In. split; [exact Hin|].
      unfold has_trackingId. rewrite Ht. apply String.eqb_refl. }
    rewrite E in Hf. destruct Hf.
  - assert (Hf : In d (filter (has_trackingId id) docs)).
    { rewrite E. left. reflexivity. }
    apply filter_In in Hf as [Hin Ht]. split; [exact Hin|].
    unfold has_trackingId in Ht. destruct (trackingId (snd d)); [|discriminate].
    apply String.eqb_eq in Ht. subst. reflexivity.
Qed.

Lemma append_assoc (a b c : string) : (a ++ b) ++ c = a ++ (b ++ c).
Proof. induction a as [|x a IH]; cbn; [reflexivity|]. rewrite IH. reflexivity. Qed.

Lemma append_nonempty (a b : string) :
  nonempty b = true -> nonempty (a ++ b) = true.
Proof. destruct a; cbn; auto. Qed.

Lemma segments_no_slash (s cur : string) :
  no_slash s = true ->
  segments_from cur s = if nonempty (cur ++ s) then [cur ++ s] else [].
Proof.
  revert cur. induction s as [|c rest IH]; intros cur H; cbn.
  - assert (E : cur ++ "" = cur).
    { induction cur as [|x cur IHc]; cbn; [reflexivity|]. rewrite IHc.
      reflexivity. }
    rewrite E. reflexivity.
  - cbn in H. apply andb_true_iff in H as [Hc Hrest].
    apply negb_true_iff in Hc. rewrite Hc, (IH _ Hrest), append_assoc.
    reflexivity.
Qed.

Lemma no_slash_no_double (s : string) :
  no_slash s = true -> has_double_slash s = false.
Proof.
  induction s as [|a rest IH]; [reflexivity|].
  cbn [no_slash has_double_slash]. intros H.
  apply andb_true_iff in H as [Ha Hrest]. apply negb_true_iff in Ha.
  destruct rest as [|b rest']; [reflexivity|].
  rewrite Ha, (IH Hrest). reflexivity.
Qed.

(** A plain id denotes the document of that id in the collection. *)
Lemma doc_ref_plain (invalid_reference : string -> ReadError) (id : string) :
  is_plain_id id = true -> doc_ref invalid_reference id = inr [id].
Proof.
  unfold is_plain_id, doc_ref, path_segments. intros H.
  apply andb_true_iff in H as [Hne Hns].
  rewrite (no_slash_no_double _ Hns), (segments_no_slash _ _ Hns).
  cbn [append]. rewrite Hne. reflexivity.
Qed.

(** The empty id, and an id with one slash inside, are refused; slashes
    around an id are dropped. *)
Example doc_ref_examples (invalid_reference : string -> ReadError) :
  doc_ref invalid_reference "" = inl (invalid_reference "")
  /\ doc_ref invalid_reference "BX/1001" = inl (invalid_reference "BX/1001")
  /\ doc_ref invalid_reference "BX//1001" = inl (invalid_reference "BX//1001")
  /\ doc_ref invalid_reference "/BX-1001/" = inr ["BX-1001"]
  /\ doc_ref invalid_reference "BX-1001/events/e1"
     = inr ["BX-1001"; "events"; "e1"].
Proof. repeat split; reflexivity. Qed.

Section TrackingRuns.

Variable invalid_reference : string -> ReadError.

(** An id that [doc] refuses is answered with the error of [doc]; no
    read is made. *)
Lemma tryFindShipment_refused (store : Store) (id : string) (e : ReadError) :
  doc_ref invalid_reference id = inl e ->
  tryFindShipment invalid_reference store id = inl e.
Proof. intros H. unfold tryFindShipment. rewrite H. reflexivity. Qed.

(** The two lookups behind the answer for a plain id. *)
Lemma tryFindShipment_plain (store : Store) (id : string) :
  is_plain_id id = true -> reads_succeed store ->
  tryFindShipment invalid_reference store id
  = inr match find (fun d => String.eqb (fst d) id) (shipments store) with
        | Some d => Some (id, snd d)
        | None =>
            match firstn 1 (filter (has_trackingId id) (shipments store)) with
            | [] => None
            | d :: _ => Some d
            end
        end.
Proof.
  intros Hplain [Hg Hq].
  unfold tryFindShipment, getDoc, getDocs_by_trackingId.
  rewrite (doc_ref_plain _ _ Hplain), Hg, Hq. cbn [lookup ref_id last].
  destruct (find (fun d => String.eqb (fst d) id) (shipments store));
    cbn [option_map]; [reflexivity|].
  destruct (firstn 1 (filter (has_trackingId id) (shipments store)));
    reflexivity.
Qed.


Variable trim : string -> string.

(** X24. A tracking search always leaves the loading state.  An entry
    whose trimmed text [doc] refuses, a blank entry among them, ends in an
    error showing the message of that error (or the fallback text when it
    has none), never in "not found".  For an entry whose trimmed text is
    a plain id, in a store whose reads succeed, the search ends in "not
    found" exactly when no shipment has that text as document id or as
    [trackingId], and otherwise in a success carrying a stored shipment
    with that document id or [trackingId]. *)
Theorem onSubmitTrack_always_settles (store : Store) (entered : string) :
  (exists final,
     onSubmitTrack invalid_reference trim store entered = [Loading; final]
     /\ final <> Loading /\ final <> Idle)
  /\ (forall e, doc_ref invalid_reference (trim entered) = inl e ->
        onSubmitTrack invalid_reference trim store entered
        = [Loading; Failed (shown_message e)])
  /\ (trim entered = "" ->
      onSubmitTrack invalid_reference trim store entered
      = [Loading; Failed (shown_message (invalid_reference ""))])
  /\ (is_plain_id (trim entered) = true -> reads_succeed store ->
      (onSubmitTrack invalid_reference trim store entered = [Loading; NotFound]
       <-> (forall d, In d (shipments store) ->
              fst d <> trim entered
              /\ trackingId (snd d) <> Some (trim entered)))
      /\ (forall shipment docId,
            onSubmitTrack invalid_reference trim store entered
            = [Loading; Success shipment docId] ->
            In (docId, shipment) (shipments store)
            /\ (docId = trim entered
                \/ trackingId shipment = Some (trim entered)))
      /\ (forall m, onSubmitTrack invalid_reference trim store entered
                    <> [Loading; Failed m])).
Proof.
  split; [|split; [|split]].
  - unfold onSubmitTrack.
    destruct (tryFindShipment invalid_reference store (trim entered))
      as [e|[found|]]; eexists; (split; [reflexivity|]); split; discriminate.
  - intros e He. unfold onSubmitTrack.
    rewrite (tryFindShipment_refused store _ e He). reflexivity.
  - intros Hblank. unfold onSubmitTrack. rewrite Hblank.
    rewrite (tryFindShipment_refused store "" (invalid_reference "") eq_refl).
    reflexivity.
  - intros Hid Hreads. unfold onSubmitTrack.
    rewrite (tryFindShipment_plain store _ Hid Hreads).
    pose proof (first_of_filter (shipments store) (trim entered)) as Hf.
    destruct (find (fun d => String.eqb (fst d) (trim entered))
                   (shipments store)) as [[k data0]|] eqn:Efind.
    + apply find_by_id_some in Efind as [Hk Hin]. cbn in Hk. subst k.
      cbn [fst snd]. split; [|split].
      * split; [discriminate|]. intros H. exfalso.
        apply (proj1 (H _ Hin)). reflexivity.
      * intros shipment docId H. injection H as <- <-. auto.
      * discriminate.
    + pose proof (proj1 (find_by_id_none _ _) Efind) as Hnone.
      destruct (firstn 1 (filter (has_trackingId (trim entered))
                                 (shipments store)))
        as [|[k data0] rest]; cbn [fst snd].
      * split; [|split].
        -- split; [|reflexivity]. intros _ d Hin.
           split; [apply Hnone|apply Hf]; exact Hin.
        -- discriminate.
        -- discriminate.
      * destruct Hf as [Hin Ht]. cbn in Ht. split; [|split].
        -- split; [discriminate|]. intros H. exfalso.
           apply (proj2 (H _ Hin)). exact Ht.
        -- intros shipment docId H. injection H as <- <-. auto.
        -- discriminate.
Qed.

End TrackingRuns.


Lemma onSubmitTrack_always_settles_witness :
  let refused := fun _ : string => mkReadError None in
  let store := mkStore [] [] (fun _ => None) (fun _ => None) in
  onSubmitTrack refused (fun _ => "") store "    "
  = [Loading; Failed "Failed to track. Try again."]
  /\ (onSubmitTrack refused (fun s => s) store "BX-1"
      = [Loading; NotFound]
      <-> (forall d, In d (shipments store) ->
             fst d <> "BX-1" /\ trackingId (snd d) <> Some "BX-1")).
Proof.
  split.
  - apply (proj1 (proj2 (proj2 (onSubmitTrack_always_settles
             (fun _ => mkReadError None) (fun _ => "")
             (mkStore [] [] (fun _ => None) (fun _ => None)) "    ")))).
    reflexivity.
  - apply (proj1 (proj2 (proj2 (proj2 (onSubmitTrack_always_settles
             (fun _ => mkReadError None) (fun s => s)
             (mkStore [] [] (fun _ => None) (fun _ => None)) "BX-1")))
             eq_refl (conj (fun _ => eq_refl) (fun _ => eq_refl)))).
Defined.

End TrackingFacts.

(** ** Theorems: more on the three variants of [useAuthProfile] *)

Module ProfileSyncMore.

Import ProfileSync ProfileSyncFacts.

Local Open Scope nat_scope.
Local Open Scope string_scope.

(** X25. In each of the three variants a null identity, when the auth
    stream is heard, publishes [{user: null, profile: null, loading:
    false}] whatever the state was before, and registers no listener and
    no read. *)
Theorem null_identity_clears_in_every_variant (w : World) :
  authListener w = true ->
  (state (Shared.deliver (AuthChanged None) w) = mkSync None None false
   /\ listeners (Shared.deliver (AuthChanged None) w) = listeners w)
  /\ (state (exec (notifyAuth Snapshot2.authCallback None) w)
      = mkSync None None false
      /\ listeners (exec (notifyAuth Snapshot2.authCallback None) w)
         = listeners w)
  /\ (state (OneShot.deliver (AuthChanged None) w) = mkSync None None false
      /\ listeners (OneShot.deliver (AuthChanged None) w) = listeners w).
Proof.
  intros Hopen. repeat split; run_hook; try rewrite Hopen; reflexivity.
Qed.

Lemma null_identity_clears_in_every_variant_witness :
  let w := Shared.run [AuthChanged (Some userU);
                       DocSnapshot 0 (Some managerProfile)] Shared.mount in
  state w = mkSync (Some userU) (Some managerProfile) false
  /\ state (Shared.deliver (AuthChanged None) w) = mkSync None None false
  /\ state (OneShot.deliver (AuthChanged None) w) = mkSync None None false.
Proof.
  split; [reflexivity|].
  pose proof (null_identity_clears_in_every_variant
                (Shared.run [AuthChanged (Some userU);
                             DocSnapshot 0 (Some managerProfile)] Shared.mount)
                eq_refl) as [[H1 _] [_ [H3 _]]].
  split; [exact H1|exact H3].
Defined.

(** X26. In the snapshot variant every event of a registered document
    listener ends with [loading] false and a non-null profile, and leaves
    the identity untouched: the profile is the document when it exists,
    and otherwise (document absent, or read error) the default customer
    profile built from the identity the listener was opened for. *)
Theorem document_event_settles_profile
        (w : World) (h : Handle) (u : User) (snap : DocumentSnapshot) :
  find_handle h (listeners w) = Some u ->
  state (Shared.deliver (DocSnapshot h snap) w)
  = mkSync (user (state w))
           (Some (match snap with
                  | Some data => data
                  | None => defaultProfile u
                  end))
           false
  /\ state (Shared.deliver (DocError h) w)
     = mkSync (user (state w)) (Some (defaultProfile u)) false.
Proof.
  intros Hfind. split.
  - run_hook. rewrite Hfind. destruct snap; reflexivity.
  - run_hook. rewrite Hfind. reflexivity.
Qed.

Lemma document_event_settles_profile_witness :
  let w := Shared.run [AuthChanged (Some userU)] Shared.mount in
  state (Shared.deliver (DocSnapshot 0 None) w)
  = mkSync (Some userU) (Some (defaultProfile userU)) false.
Proof.
  apply (proj1 (document_event_settles_profile
                  (Shared.run [AuthChanged (Some userU)] Shared.mount)
                  0 userU None eq_refl)).
Defined.

(** X27. On a new non-null identity the snapshot variants keep whatever
    profile was cached (it stays visible, with [loading] true, until the
    first document event), while the one-shot variant resets the profile to
    null at once. *)
Theorem identity_change_and_cached_profile (w : World) (u : User) :
  authListener w = true ->
  state (Shared.deliver (AuthChanged (Some u)) w)
  = mkSync (Some u) (profile (state w)) true
  /\ state (exec (notifyAuth Snapshot2.authCallback (Some u)) w)
     = mkSync (Some u) (profile (state w)) true
  /\ state (OneShot.deliver (AuthChanged (Some u)) w)
     = mkSync (Some u) None true.
Proof.
  intros Hopen. repeat split; run_hook; try rewrite Hopen; reflexivity.
Qed.

Lemma identity_change_and_cached_profile_witness :
  let w := Shared.run [AuthChanged (Some userU);
                       DocSnapshot 0 (Some managerProfile)] Shared.mount in
  state (Shared.deliver (AuthChanged (Some userV)) w)
  = mkSync (Some userV) (Some managerProfile) true
  /\ state (OneShot.deliver (AuthChanged (Some userV)) w)
     = mkSync (Some userV) None true.
Proof.
  pose proof (identity_change_and_cached_profile
                (Shared.run [AuthChanged (Some userU);
                             DocSnapshot 0 (Some managerProfile)] Shared.mount)
                userV eq_refl) as [H1 [_ H3]].
  split; [exact H1|exact H3].
Defined.

Lemma succ_neq (n : nat) : Nat.eqb n (S n) = false.
Proof. apply Nat.eqb_neq. lia. Qed.

(** X28. In the one-shot variant a read is never cancelled: when it
    resolves, its document becomes the published profile and [loading]
    becomes false even if another identity, or none, has been delivered in
    the meantime and that identity's own read is still pending. *)
Theorem oneshot_late_read_is_applied
        (w : World) (u v : User) (p : UserProfile) :
  authListener w = true ->
  state (OneShot.run [AuthChanged (Some u); AuthChanged (Some v);
                      DocSnapshot (nextHandle w) (Some p)] w)
  = mkSync (Some v) (Some p) false
  /\ find_handle (S (nextHandle w))
       (listeners (OneShot.run [AuthChanged (Some u); AuthChanged (Some v);
                                DocSnapshot (nextHandle w) (Some p)] w))
     = Some v
  /\ state (OneShot.run [AuthChanged (Some u); AuthChanged None;
                         DocSnapshot (nextHandle w) (Some p)] w)
     = mkSync None (Some p) false.
Proof.
  intros Hopen. repeat split; run_hook; rewrite Hopen; cbn;
    rewrite ?succ_neq, ?Nat.eqb_refl; cbn;
    rewrite ?succ_neq, ?Nat.eqb_refl; cbn;
    rewrite ?Nat.eqb_refl; reflexivity.
Qed.

Lemma oneshot_late_read_is_applied_witness :
  state (OneShot.run [AuthChanged (Some userU); AuthChanged (Some userV);
                      DocSnapshot 0 (Some managerProfile)] OneShot.mount)
  = mkSync (Some userV) (Some managerProfile) false.
Proof.
  apply (proj1 (oneshot_late_read_is_applied OneShot.mount userU userV
                  managerProfile eq_refl)).
Defined.

Lemma shared_auth_step_listeners (w : World) (u : option User) :
  authListener w = true ->
  authListener (Shared.deliver (AuthChanged u) w) = true
  /\ List.length (listeners (Shared.deliver (AuthChanged u) w))
     = List.length (listeners w) + sign_ins [AuthChanged u].
Proof.
  intros Hopen. destruct u as [u|]; run_hook; rewrite Hopen; cbn;
    split; try reflexivity; lia.
Qed.

(** X29. While the auth stream is heard, a run of auth events leaves one
    more registered document listener for every non-null identity it
    delivers: none of them is ever removed, whether the next event is
    another identity or a logout. *)
Theorem one_listener_per_sign_in (es : list Event) (w : World) :
  authListener w = true ->
  forallb is_auth_event es = true ->
  List.length (listeners (Shared.run es w))
  = List.length (listeners w) + sign_ins es.
Proof.
  revert w. induction es as [|e es IH]; intros w Hopen Hes.
  - cbn. lia.
  - cbn [forallb] in Hes. apply andb_true_iff in Hes as [He Hes].
    destruct e as [u| | |]; try discriminate He.
    rewrite shared_run_cons.
    destruct (shared_auth_step_listeners w u Hopen) as [Hopen' Hlen].
    rewrite (IH _ Hopen' Hes), Hlen.
    destruct u; cbn; lia.
Qed.

Lemma one_listener_per_sign_in_witness :
  List.length (listeners (Shared.run [AuthChanged (Some userU); AuthChanged None;
                                      AuthChanged (Some userV);
                                      AuthChanged (Some userU)] Shared.mount))
  = 0 + 3.
Proof.
  apply (one_listener_per_sign_in
           [AuthChanged (Some userU); AuthChanged None;
            AuthChanged (Some userV); AuthChanged (Some userU)]
           Shared.mount); reflexivity.
Defined.

End ProfileSyncMore.
